(** * Access control and tenancy model of the garage management schema

    A shallow embedding of the SQL migration that defines the schema of the
    application: the six tables of schema [public], the helper functions
    [has_role] and [get_user_garage], the row-level security policies, the
    [updated_at] trigger, the [handle_new_user] trigger, and the declared
    constraints with their referential actions.

    Conventions
    - a UUID is a number ([N]); TEXT is [string]; TIMESTAMP WITH TIME ZONE and
      INTEGER are [Z]; DECIMAL(10,2) is a [Z] counting hundredths;
    - a nullable column has an [option] type, a NOT NULL column does not;
    - a SQL boolean expression evaluates to [option bool], [None] being NULL;
    - a table is the list of its rows, in insertion order. *)

From Stdlib Require Import List String ZArith NArith Bool Lia.
Import ListNotations.
Local Open Scope string_scope.
Local Open Scope Z_scope.

Set Implicit Arguments.

(* ------------------------------------------------------------------------- *)
(** ** Column types *)

Definition uuid := N.
Definition timestamptz := Z.
Bind Scope N_scope with uuid.
Bind Scope Z_scope with timestamptz.

(** [CREATE TYPE public.app_role AS ENUM ('admin', 'responsable', 'employe')] *)
Inductive app_role := admin | responsable | employe.

Definition app_role_eqb (a b : app_role) : bool :=
  match a, b with
  | admin, admin | responsable, responsable | employe, employe => true
  | _, _ => false
  end.

(* ------------------------------------------------------------------------- *)
(** ** Rows of the tables *)

(** [auth.users] belongs to the platform; only the columns read by
    [handle_new_user] are kept.  [raw_user_meta_data] is a JSON object, kept as
    the association list of its text members. *)
Module AuthUsers.
Record row := mk {
    id : uuid;
    email : option string;
    raw_user_meta_data : list (string * string)
  }.
End AuthUsers.

Module Garages.
Record row := mk {
    id : uuid;
    nom : string;
    adresse : option string;
    telephone : option string;
    email : option string;
    created_at : timestamptz;
    updated_at : timestamptz
  }.
End Garages.

Module Profiles.
Record row := mk {
    id : uuid;
    user_id : uuid;
    nom : string;
    prenom : string;
    email : option string;
    telephone : option string;
    garage_id : option uuid;
    created_at : timestamptz;
    updated_at : timestamptz
  }.
End Profiles.

Module UserRoles.
Record row := mk {
    id : uuid;
    user_id : uuid;
    role : app_role;
    created_at : timestamptz
  }.
End UserRoles.

Module Voitures.
Record row := mk {
    id : uuid;
    garage_id : uuid;
    marque : string;
    modele : string;
    annee : Z;
    prix : Z;
    kilometrage : option Z;
    carburant : string;
    etat : string;
    disponible : bool;
    couleur : option string;
    description : option string;
    image_url : option string;
    created_at : timestamptz;
    updated_at : timestamptz
  }.
End Voitures.

Module Clients.
Record row := mk {
    id : uuid;
    garage_id : uuid;
    nom : string;
    prenom : string;
    email : option string;
    telephone : option string;
    adresse : option string;
    created_at : timestamptz;
    updated_at : timestamptz
  }.
End Clients.

Module Ventes.
Record row := mk {
    id : uuid;
    voiture_id : uuid;
    client_id : uuid;
    employe_id : uuid;
    garage_id : uuid;
    prix_vente : Z;
    date_vente : timestamptz;
    notes : option string;
    created_at : timestamptz
  }.
End Ventes.

(* ------------------------------------------------------------------------- *)
(** ** The database *)

Record db := mkdb {
  auth_users_rows : list AuthUsers.row;
  garages_rows : list Garages.row;
  profiles_rows : list Profiles.row;
  user_roles_rows : list UserRoles.row;
  voitures_rows : list Voitures.row;
  clients_rows : list Clients.row;
  ventes_rows : list Ventes.row
}.

(** The six tables of schema [public], indexed by their row type. *)
Inductive table : Type -> Type :=
| garages : table Garages.row
| profiles : table Profiles.row
| user_roles : table UserRoles.row
| voitures : table Voitures.row
| clients : table Clients.row
| ventes : table Ventes.row.

Definition rows {R} (t : table R) (d : db) : list R :=
  match t in table R return list R with
  | garages => garages_rows d
  | profiles => profiles_rows d
  | user_roles => user_roles_rows d
  | voitures => voitures_rows d
  | clients => clients_rows d
  | ventes => ventes_rows d
  end.

Definition set_rows {R} (t : table R) (l : list R) (d : db) : db :=
  match t in table R return list R -> db with
  | garages => fun l =>
      mkdb (auth_users_rows d) l (profiles_rows d) (user_roles_rows d)
           (voitures_rows d) (clients_rows d) (ventes_rows d)
  | profiles => fun l =>
      mkdb (auth_users_rows d) (garages_rows d) l (user_roles_rows d)
           (voitures_rows d) (clients_rows d) (ventes_rows d)
  | user_roles => fun l =>
      mkdb (auth_users_rows d) (garages_rows d) (profiles_rows d) l
           (voitures_rows d) (clients_rows d) (ventes_rows d)
  | voitures => fun l =>
      mkdb (auth_users_rows d) (garages_rows d) (profiles_rows d)
           (user_roles_rows d) l (clients_rows d) (ventes_rows d)
  | clients => fun l =>
      mkdb (auth_users_rows d) (garages_rows d) (profiles_rows d)
           (user_roles_rows d) (voitures_rows d) l (ventes_rows d)
  | ventes => fun l =>
      mkdb (auth_users_rows d) (garages_rows d) (profiles_rows d)
           (user_roles_rows d) (voitures_rows d) (clients_rows d) l
  end l.

(** The primary key column [id] of each table. *)
Definition pk {R} (t : table R) : R -> uuid :=
  match t in table R return R -> uuid with
  | garages => Garages.id
  | profiles => Profiles.id
  | user_roles => UserRoles.id
  | voitures => Voitures.id
  | clients => Clients.id
  | ventes => Ventes.id
  end.

(* ------------------------------------------------------------------------- *)
(** ** SQL three-valued logic *)

Definition sql_bool := option bool.

Definition sql_and (a b : sql_bool) : sql_bool :=
  match a, b with
  | Some false, _ | _, Some false => Some false
  | Some true, Some true => Some true
  | _, _ => None
  end.

Definition sql_or (a b : sql_bool) : sql_bool :=
  match a, b with
  | Some true, _ | _, Some true => Some true
  | Some false, Some false => Some false
  | _, _ => None
  end.

(** [a = b] on nullable UUIDs: NULL as soon as one side is NULL. *)
Definition sql_eq (a b : option uuid) : sql_bool :=
  match a, b with
  | Some x, Some y => Some (N.eqb x y)
  | _, _ => None
  end.

(** A row passes a policy expression only when it evaluates to TRUE. *)
Definition is_true (b : sql_bool) : bool :=
  match b with Some true => true | _ => false end.

(* ------------------------------------------------------------------------- *)
(** ** Sessions *)

(** The database role of a request and the identity of its token.
    [auth.uid()] is NULL for an anonymous request. *)
Inductive session :=
| Anon
| Authenticated (uid : uuid).

Inductive db_role := anon | authenticated.

Definition db_role_eqb (a b : db_role) : bool :=
  match a, b with
  | anon, anon | authenticated, authenticated => true
  | _, _ => false
  end.

Definition current_role (s : session) : db_role :=
  match s with Anon => anon | Authenticated _ => authenticated end.

Definition auth_uid (s : session) : option uuid :=
  match s with Anon => None | Authenticated u => Some u end.

(* ------------------------------------------------------------------------- *)
(** ** Security definer helpers *)

(** [has_role(_user_id, _role)]:
    [SELECT EXISTS (SELECT 1 FROM user_roles
                    WHERE user_id = _user_id AND role = _role)]. *)
Definition has_role (d : db) (_user_id : option uuid) (_role : app_role) : bool :=
  existsb
    (fun r => is_true (sql_and (sql_eq (Some (UserRoles.user_id r)) _user_id)
                               (Some (app_role_eqb (UserRoles.role r) _role))))
    (user_roles_rows d).

(** [get_user_garage(_user_id)]:
    [SELECT garage_id FROM profiles WHERE user_id = _user_id];
    the value of the first selected row, NULL when there is none. *)
Definition get_user_garage (d : db) (_user_id : option uuid) : option uuid :=
  match find (fun p => is_true (sql_eq (Some (Profiles.user_id p)) _user_id))
             (profiles_rows d) with
  | Some p => Profiles.garage_id p
  | None => None
  end.

(* ------------------------------------------------------------------------- *)
(** ** Row-level security policies *)

Inductive command := SELECT | INSERT | UPDATE | DELETE.

Definition command_eqb (a b : command) : bool :=
  match a, b with
  | SELECT, SELECT | INSERT, INSERT | UPDATE, UPDATE | DELETE, DELETE => true
  | _, _ => false
  end.

(** The command a policy is declared for: [FOR ALL] or [FOR] one command. *)
Inductive policy_for := FOR_ALL | FOR (c : command).

Definition policy_expr (R : Type) := db -> session -> R -> sql_bool.

Record policy (R : Type) := mkpolicy {
  polname : string;
  polcmd : policy_for;
  polroles : list db_role;
  polqual : option (policy_expr R);
  polwithcheck : option (policy_expr R)
}.

Definition is_admin : forall R, policy_expr R :=
  fun R d s _ => Some (has_role d (auth_uid s) admin).

(** [(garage_id = get_user_garage(auth.uid()) AND has_role(auth.uid(),
    'responsable')) OR has_role(auth.uid(), 'admin')] *)
Definition manage_expr {R} (garage_id : R -> uuid) : policy_expr R :=
  fun d s r =>
    sql_or
      (sql_and (sql_eq (Some (garage_id r)) (get_user_garage d (auth_uid s)))
               (Some (has_role d (auth_uid s) responsable)))
      (Some (has_role d (auth_uid s) admin)).

(** [garage_id = get_user_garage(auth.uid()) OR has_role(auth.uid(), 'admin')] *)
Definition view_expr {R} (garage_id : R -> uuid) : policy_expr R :=
  fun d s r =>
    sql_or (sql_eq (Some (garage_id r)) (get_user_garage d (auth_uid s)))
           (Some (has_role d (auth_uid s) admin)).

Definition garages_policies : list (policy Garages.row) :=
  [ mkpolicy "Admins can manage all garages" FOR_ALL [authenticated]
      (Some (@is_admin _)) (Some (@is_admin _));
    mkpolicy "Users can view their garage" (FOR SELECT) [authenticated]
      (Some (fun d s r =>
               sql_eq (Some (Garages.id r)) (get_user_garage d (auth_uid s))))
      None ].

Definition profiles_policies : list (policy Profiles.row) :=
  [ mkpolicy "Users can view their own profile" (FOR SELECT) [authenticated]
      (Some (fun d s r => sql_eq (Some (Profiles.user_id r)) (auth_uid s)))
      None;
    mkpolicy "Admins can manage all profiles" FOR_ALL [authenticated]
      (Some (@is_admin _)) (Some (@is_admin _));
    mkpolicy "Users can update their own profile" (FOR UPDATE) [authenticated]
      (Some (fun d s r => sql_eq (Some (Profiles.user_id r)) (auth_uid s)))
      (Some (fun d s r => sql_eq (Some (Profiles.user_id r)) (auth_uid s))) ].

Definition user_roles_policies : list (policy UserRoles.row) :=
  [ mkpolicy "Users can view their own roles" (FOR SELECT) [authenticated]
      (Some (fun d s r => sql_eq (Some (UserRoles.user_id r)) (auth_uid s)))
      None;
    mkpolicy "Admins can manage all roles" FOR_ALL [authenticated]
      (Some (@is_admin _)) (Some (@is_admin _)) ].

Definition voitures_policies : list (policy Voitures.row) :=
  [ mkpolicy "Authenticated users can view cars from their garage"
      (FOR SELECT) [authenticated]
      (Some (view_expr Voitures.garage_id)) None;
    mkpolicy "Responsables and admins can manage cars" FOR_ALL [authenticated]
      (Some (manage_expr Voitures.garage_id))
      (Some (manage_expr Voitures.garage_id)) ].

Definition clients_policies : list (policy Clients.row) :=
  [ mkpolicy "Users can view clients from their garage"
      (FOR SELECT) [authenticated]
      (Some (view_expr Clients.garage_id)) None;
    mkpolicy "Responsables and admins can manage clients" FOR_ALL
      [authenticated]
      (Some (manage_expr Clients.garage_id))
      (Some (manage_expr Clients.garage_id)) ].

Definition ventes_policies : list (policy Ventes.row) :=
  [ mkpolicy "Users can view sales from their garage"
      (FOR SELECT) [authenticated]
      (Some (view_expr Ventes.garage_id)) None;
    mkpolicy "Authenticated users can create sales" (FOR INSERT) [authenticated]
      None
      (Some (fun d s r =>
               sql_eq (Some (Ventes.garage_id r))
                      (get_user_garage d (auth_uid s))));
    mkpolicy "Responsables and admins can manage sales" (FOR UPDATE)
      [authenticated]
      (Some (manage_expr Ventes.garage_id))
      (Some (manage_expr Ventes.garage_id)) ].

Definition policies {R} (t : table R) : list (policy R) :=
  match t in table R return list (policy R) with
  | garages => garages_policies
  | profiles => profiles_policies
  | user_roles => user_roles_policies
  | voitures => voitures_policies
  | clients => clients_policies
  | ventes => ventes_policies
  end.

(** *** Evaluation of the policies of a table

    Row-level security is enabled on every table and every policy is
    permissive: a row passes when at least one policy that applies to the
    command and to the role of the session evaluates to TRUE on it; with no
    applicable policy nothing passes. *)

Definition applies {R} (c : command) (s : session) (p : policy R) : bool :=
  match polcmd p with
  | FOR_ALL => true
  | FOR c' => command_eqb c' c
  end
  && existsb (db_role_eqb (current_role s)) (polroles p).

(** The USING expressions, applied to an existing row. *)
Definition passes_using {R} (pols : list (policy R)) (c : command)
    (d : db) (s : session) (r : R) : bool :=
  existsb
    (fun p => applies c s p
              && match polqual p with
                 | Some e => is_true (e d s r)
                 | None => false
                 end)
    pols.

(** The WITH CHECK expressions, applied to a proposed row; a policy declared
    without WITH CHECK checks its USING expression instead. *)
Definition passes_check {R} (pols : list (policy R)) (c : command)
    (d : db) (s : session) (r : R) : bool :=
  existsb
    (fun p => applies c s p
              && match polwithcheck p, polqual p with
                 | Some e, _ => is_true (e d s r)
                 | None, Some e => is_true (e d s r)
                 | None, None => false
                 end)
    pols.

(** A data operation on the rows it involves. *)
Inductive dml (R : Type) :=
| Select (r : R)
| Insert (r : R)
| Update (old new : R)
| Delete (r : R).

Arguments Select {R} r.
Arguments Insert {R} r.
Arguments Update {R} old new.
Arguments Delete {R} r.

(** The authorization decision. *)
Definition authorize {R} (t : table R) (d : db) (s : session) (q : dml R)
  : bool :=
  match q with
  | Select r => passes_using (policies t) SELECT d s r
  | Insert r => passes_check (policies t) INSERT d s r
  | Update old new =>
      passes_using (policies t) UPDATE d s old
      && passes_check (policies t) UPDATE d s new
  | Delete r => passes_using (policies t) DELETE d s r
  end.

(* ------------------------------------------------------------------------- *)
(** ** Triggers *)

(** The tables that carry an [updated_at] column. *)
Class UpdatedAt (R : Type) := {
  get_updated_at : R -> timestamptz;
  set_updated_at : timestamptz -> R -> R
}.

#[export] Instance garages_updated_at : UpdatedAt Garages.row := {|
  get_updated_at := Garages.updated_at;
  set_updated_at := fun ts r =>
    Garages.mk (Garages.id r) (Garages.nom r) (Garages.adresse r)
      (Garages.telephone r) (Garages.email r) (Garages.created_at r) ts
|}.

#[export] Instance profiles_updated_at : UpdatedAt Profiles.row := {|
  get_updated_at := Profiles.updated_at;
  set_updated_at := fun ts r =>
    Profiles.mk (Profiles.id r) (Profiles.user_id r) (Profiles.nom r)
      (Profiles.prenom r) (Profiles.email r) (Profiles.telephone r)
      (Profiles.garage_id r) (Profiles.created_at r) ts
|}.

#[export] Instance voitures_updated_at : UpdatedAt Voitures.row := {|
  get_updated_at := Voitures.updated_at;
  set_updated_at := fun ts r =>
    Voitures.mk (Voitures.id r) (Voitures.garage_id r) (Voitures.marque r)
      (Voitures.modele r) (Voitures.annee r) (Voitures.prix r)
      (Voitures.kilometrage r) (Voitures.carburant r) (Voitures.etat r)
      (Voitures.disponible r) (Voitures.couleur r) (Voitures.description r)
      (Voitures.image_url r) (Voitures.created_at r) ts
|}.

#[export] Instance clients_updated_at : UpdatedAt Clients.row := {|
  get_updated_at := Clients.updated_at;
  set_updated_at := fun ts r =>
    Clients.mk (Clients.id r) (Clients.garage_id r) (Clients.nom r)
      (Clients.prenom r) (Clients.email r) (Clients.telephone r)
      (Clients.adresse r) (Clients.created_at r) ts
|}.

(** [update_updated_at_column()]: [NEW.updated_at = now(); RETURN NEW]. *)
Definition update_updated_at_column {R} `{UpdatedAt R}
    (now : timestamptz) (NEW : R) : R :=
  set_updated_at now NEW.

(** The BEFORE UPDATE row triggers: [update_garages_updated_at],
    [update_profiles_updated_at], [update_voitures_updated_at] and
    [update_clients_updated_at]; none on [user_roles] and [ventes]. *)
Definition before_update {R} (t : table R) (now : timestamptz) : R -> R :=
  match t in table R return R -> R with
  | garages => update_updated_at_column now
  | profiles => update_updated_at_column now
  | user_roles => fun NEW => NEW
  | voitures => update_updated_at_column now
  | clients => update_updated_at_column now
  | ventes => fun NEW => NEW
  end.

(** The update timestamp of a row, for the tables that have the column. *)
Definition updated_at_of {R} (t : table R) : R -> option timestamptz :=
  match t in table R return R -> option timestamptz with
  | garages => fun r => Some (get_updated_at r)
  | profiles => fun r => Some (get_updated_at r)
  | user_roles => fun _ => None
  | voitures => fun r => Some (get_updated_at r)
  | clients => fun r => Some (get_updated_at r)
  | ventes => fun _ => None
  end.

(* ------------------------------------------------------------------------- *)
(** ** Declared constraints *)

Fixpoint distinct_by {A} (eqb : A -> A -> bool) (l : list A) : bool :=
  match l with
  | [] => true
  | x :: l' => negb (existsb (eqb x) l') && distinct_by eqb l'
  end.

Definition distinct (l : list uuid) : bool := distinct_by N.eqb l.

(** [k] is the key of one of the referenced rows. *)
Definition refers (keys : list uuid) (k : uuid) : bool := existsb (N.eqb k) keys.

Definition user_role_key_eqb (a b : uuid * app_role) : bool :=
  N.eqb (fst a) (fst b) && app_role_eqb (snd a) (snd b).

Definition carburants : list string :=
  ["essence"; "diesel"; "electrique"; "hybride"; "gpl"].

Definition etats : list string := ["neuf"; "occasion"; "reconditionne"].

(** The range of INTEGER and of DECIMAL(10,2), the latter in hundredths. *)
Definition int4 (x : Z) : bool := (- 2 ^ 31 <=? x) && (x <? 2 ^ 31).
Definition decimal_10_2 (x : Z) : bool := Z.abs x <? 10 ^ 10.

(** Every declared constraint under its name, as a test of the whole
    database.  NOT NULL is in the type of the columns. *)
Definition constraints : list (string * (db -> bool)) :=
  [ ("users_pkey",
      fun d => distinct (map AuthUsers.id (auth_users_rows d)));
    ("garages_pkey",
      fun d => distinct (map Garages.id (garages_rows d)));
    ("profiles_pkey",
      fun d => distinct (map Profiles.id (profiles_rows d)));
    ("profiles_user_id_key",
      fun d => distinct (map Profiles.user_id (profiles_rows d)));
    ("profiles_user_id_fkey",
      fun d => forallb (fun p => refers (map AuthUsers.id (auth_users_rows d))
                                        (Profiles.user_id p))
                       (profiles_rows d));
    ("profiles_garage_id_fkey",
      fun d => forallb (fun p => match Profiles.garage_id p with
                                 | Some g =>
                                     refers (map Garages.id (garages_rows d)) g
                                 | None => true
                                 end)
                       (profiles_rows d));
    ("user_roles_pkey",
      fun d => distinct (map UserRoles.id (user_roles_rows d)));
    ("user_roles_user_id_role_key",
      fun d => distinct_by user_role_key_eqb
                 (map (fun r => (UserRoles.user_id r, UserRoles.role r))
                      (user_roles_rows d)));
    ("user_roles_user_id_fkey",
      fun d => forallb (fun r => refers (map AuthUsers.id (auth_users_rows d))
                                        (UserRoles.user_id r))
                       (user_roles_rows d));
    ("voitures_pkey",
      fun d => distinct (map Voitures.id (voitures_rows d)));
    ("voitures_garage_id_fkey",
      fun d => forallb (fun v => refers (map Garages.id (garages_rows d))
                                        (Voitures.garage_id v))
                       (voitures_rows d));
    ("voitures_carburant_check",
      fun d => forallb (fun v => existsb (String.eqb (Voitures.carburant v))
                                         carburants)
                       (voitures_rows d));
    ("voitures_etat_check",
      fun d => forallb (fun v => existsb (String.eqb (Voitures.etat v)) etats)
                       (voitures_rows d));
    ("voitures_column_ranges",
      fun d => forallb (fun v => int4 (Voitures.annee v)
                                 && decimal_10_2 (Voitures.prix v)
                                 && match Voitures.kilometrage v with
                                    | Some k => int4 k
                                    | None => true
                                    end)
                       (voitures_rows d));
    ("clients_pkey",
      fun d => distinct (map Clients.id (clients_rows d)));
    ("clients_garage_id_fkey",
      fun d => forallb (fun c => refers (map Garages.id (garages_rows d))
                                        (Clients.garage_id c))
                       (clients_rows d));
    ("ventes_pkey",
      fun d => distinct (map Ventes.id (ventes_rows d)));
    ("ventes_voiture_id_fkey",
      fun d => forallb (fun v => refers (map Voitures.id (voitures_rows d))
                                        (Ventes.voiture_id v))
                       (ventes_rows d));
    ("ventes_client_id_fkey",
      fun d => forallb (fun v => refers (map Clients.id (clients_rows d))
                                        (Ventes.client_id v))
                       (ventes_rows d));
    ("ventes_employe_id_fkey",
      fun d => forallb (fun v => refers (map Profiles.id (profiles_rows d))
                                        (Ventes.employe_id v))
                       (ventes_rows d));
    ("ventes_garage_id_fkey",
      fun d => forallb (fun v => refers (map Garages.id (garages_rows d))
                                        (Ventes.garage_id v))
                       (ventes_rows d));
    ("ventes_column_ranges",
      fun d => forallb (fun v => decimal_10_2 (Ventes.prix_vente v))
                       (ventes_rows d)) ].

(** The names of the constraints a database breaks. *)
Definition violated (d : db) : list string :=
  map fst (filter (fun c => negb (snd c d)) constraints).

Definition valid (d : db) : Prop := violated d = [].

(* ------------------------------------------------------------------------- *)
(** ** Execution of data operations *)

Inductive error :=
| AuthorizationDenied
| NotFound
| ConstraintViolation (names : list string).

Inductive result (A : Type) :=
| Ok (a : A)
| Err (e : error).

Arguments Ok {A} a.
Arguments Err {A} e.

(** A statement is atomic: it commits the state it produced only when that
    state breaks no constraint.  The error carries the names of all the
    constraints the state breaks; PostgreSQL raises on one of them, the first
    it comes to. *)
Definition check_constraints (d : db) : result db :=
  match violated d with
  | [] => Ok d
  | names => Err (ConstraintViolation names)
  end.

(** The statements the client library issues:
    [insert([r])], [update(set).eq('id', k)] and [delete().eq('id', k)]. *)
Inductive statement :=
| InsertInto {R} (t : table R) (r : R)
| UpdateRow {R} (t : table R) (k : uuid) (set : R -> R)
| DeleteRow {R} (t : table R) (k : uuid).

Definition lookup_row {R} (t : table R) (k : uuid) (d : db) : option R :=
  find (fun r => N.eqb (pk t r) k) (rows t d).

Definition replace_row {R} (t : table R) (k : uuid) (new : R) (l : list R)
  : list R :=
  map (fun r => if N.eqb (pk t r) k then new else r) l.

Definition remove_row {R} (t : table R) (k : uuid) (l : list R) : list R :=
  filter (fun r => negb (N.eqb (pk t r) k)) l.

(** [garage_id UUID REFERENCES public.garages(id) ON DELETE SET NULL] on
    [profiles]; the update it performs fires [update_profiles_updated_at]. *)
Definition profiles_set_null (now : timestamptz) (g : uuid) (p : Profiles.row)
  : Profiles.row :=
  if is_true (sql_eq (Profiles.garage_id p) (Some g))
  then before_update profiles now
         (Profiles.mk (Profiles.id p) (Profiles.user_id p) (Profiles.nom p)
            (Profiles.prenom p) (Profiles.email p) (Profiles.telephone p)
            None (Profiles.created_at p) (Profiles.updated_at p))
  else p.

(** The referential actions fired by the deletion of the row of key [k].
    Only [garages] is referenced with an action that changes rows:
    ON DELETE CASCADE from [voitures], [clients] and [ventes], ON DELETE SET
    NULL from [profiles].  ON DELETE RESTRICT (from [ventes] to [voitures],
    [clients] and [profiles]) changes nothing and leaves the reference to be
    refused by [check_constraints].  Referential actions are not subject to
    row-level security. *)
Definition on_delete {R} (t : table R) (now : timestamptz) (k : uuid) (d : db)
  : db :=
  match t with
  | garages =>
      mkdb (auth_users_rows d)
           (garages_rows d)
           (map (profiles_set_null now k) (profiles_rows d))
           (user_roles_rows d)
           (filter (fun v => negb (N.eqb (Voitures.garage_id v) k))
                   (voitures_rows d))
           (filter (fun c => negb (N.eqb (Clients.garage_id c) k))
                   (clients_rows d))
           (filter (fun v => negb (N.eqb (Ventes.garage_id v) k))
                   (ventes_rows d))
  | _ => d
  end.

Definition exec_insert {R} (t : table R) (d : db) (s : session) (r : R)
  : result db :=
  if passes_check (policies t) INSERT d s r
  then check_constraints (set_rows t (rows t d ++ [r]) d)
  else Err AuthorizationDenied.

(** A row that does not pass USING is not seen by UPDATE and DELETE; a new row
    that does not pass WITH CHECK is an error.  The BEFORE UPDATE trigger runs
    before the WITH CHECK expressions are evaluated.  The statement addresses
    the row by its primary key.  Its WHERE clause also asks for the SELECT
    policies on the rows involved; they are left out here because, on every
    table, a row that passes for a write passes for SELECT
    ([write_implies_read] below). *)
Definition exec_update {R} (t : table R) (d : db) (s : session)
    (now : timestamptz) (k : uuid) (set : R -> R) : result db :=
  match lookup_row t k d with
  | None => Err NotFound
  | Some old =>
      if passes_using (policies t) UPDATE d s old then
        let new := before_update t now (set old) in
        if passes_check (policies t) UPDATE d s new
        then check_constraints (set_rows t (replace_row t k new (rows t d)) d)
        else Err AuthorizationDenied
      else Err NotFound
  end.

Definition exec_delete {R} (t : table R) (d : db) (s : session)
    (now : timestamptz) (k : uuid) : result db :=
  match lookup_row t k d with
  | None => Err NotFound
  | Some old =>
      if passes_using (policies t) DELETE d s old
      then check_constraints
             (on_delete t now k (set_rows t (remove_row t k (rows t d)) d))
      else Err NotFound
  end.

Definition exec (d : db) (s : session) (now : timestamptz) (q : statement)
  : result db :=
  match q with
  | InsertInto t r => exec_insert t d s r
  | UpdateRow t k set => exec_update t d s now k set
  | DeleteRow t k => exec_delete t d s now k
  end.

(* ------------------------------------------------------------------------- *)
(** ** Creation of an identity *)

(** [o ->> k] on a JSON object. *)
Fixpoint json_text (o : list (string * string)) (k : string) : option string :=
  match o with
  | [] => None
  | (k', v) :: o' => if String.eqb k' k then Some v else json_text o' k
  end.

Definition COALESCE {A} (a : option A) (b : A) : A :=
  match a with Some x => x | None => b end.

(** [handle_new_user()], fired AFTER INSERT ON auth.users FOR EACH ROW.  It is
    SECURITY DEFINER: its two inserts are not subject to row-level security.
    [pid] and [rid] are the values [gen_random_uuid()] draws for the [id]
    columns; the other columns left out take their defaults. *)
Definition handle_new_user (now : timestamptz) (pid rid : uuid)
    (new : AuthUsers.row) (d : db) : db :=
  let d1 :=
    set_rows profiles
      (profiles_rows d ++
       [Profiles.mk pid (AuthUsers.id new)
          (COALESCE (json_text (AuthUsers.raw_user_meta_data new) "nom")
                    "Nouveau")
          (COALESCE (json_text (AuthUsers.raw_user_meta_data new) "prenom")
                    "Utilisateur")
          (AuthUsers.email new) None None now now])
      d in
  set_rows user_roles
    (user_roles_rows d1 ++ [UserRoles.mk rid (AuthUsers.id new) employe now])
    d1.

(** [INSERT INTO auth.users], with its trigger, as one atomic statement. *)
Definition insert_auth_user (d : db) (now : timestamptz) (pid rid : uuid)
    (new : AuthUsers.row) : result db :=
  check_constraints
    (handle_new_user now pid rid new
       (mkdb (auth_users_rows d ++ [new]) (garages_rows d) (profiles_rows d)
             (user_roles_rows d) (voitures_rows d) (clients_rows d)
             (ventes_rows d))).

(* ------------------------------------------------------------------------- *)
(** ** Reachable states *)

(** The events of the model are the statements that go through the policies
    and the creation of an identity.  What the owner of the tables or the
    service role of the platform does bypasses row-level security and is not
    an event here. *)
Inductive event :=
| Request (s : session) (now : timestamptz) (q : statement)
| SignUp (now : timestamptz) (pid rid : uuid) (new : AuthUsers.row).

Definition exec_event (d : db) (ev : event) : result db :=
  match ev with
  | Request s now q => exec d s now q
  | SignUp now pid rid new => insert_auth_user d now pid rid new
  end.

(** A rejected event leaves the state as it was. *)
Definition apply_event (d : db) (ev : event) : db :=
  match exec_event d ev with
  | Ok d' => d'
  | Err _ => d
  end.

Definition run (d : db) (evs : list event) : db := fold_left apply_event evs d.

(** The states reached from a valid database by any sequence of events. *)
Definition reachable (d : db) : Prop :=
  exists d0 evs, valid d0 /\ run d0 evs = d.

(* ------------------------------------------------------------------------- *)
(** ** Vocabulary of the properties *)

(** The garage-scoped tables, with the column that holds the garage. *)
Definition tenant {R} (t : table R) : option (R -> uuid) :=
  match t in table R return option (R -> uuid) with
  | voitures => Some Voitures.garage_id
  | clients => Some Clients.garage_id
  | ventes => Some Ventes.garage_id
  | _ => None
  end.

Definition is_ventes {R} (t : table R) : bool :=
  match t with ventes => true | _ => false end.

Definition is_garages {R} (t : table R) : bool :=
  match t with garages => true | _ => false end.

Definition is_write {R} (q : dml R) : bool :=
  match q with Select _ => false | _ => true end.

Definition is_insert {R} (q : dml R) : bool :=
  match q with Insert _ => true | _ => false end.

Definition is_delete {R} (q : dml R) : bool :=
  match q with Delete _ => true | _ => false end.

(** The number of profiles of an identity. *)
Definition profiles_of (d : db) (u : uuid) : list Profiles.row :=
  filter (fun p => N.eqb (Profiles.user_id p) u) (profiles_rows d).

Definition roles_of (d : db) (u : uuid) (a : app_role) : list UserRoles.row :=
  filter (fun r => N.eqb (UserRoles.user_id r) u
                   && app_role_eqb (UserRoles.role r) a)
         (user_roles_rows d).

(** Every identity has exactly one profile. *)
Definition one_profile_each (d : db) : Prop :=
  forall u, In u (map AuthUsers.id (auth_users_rows d)) ->
            List.length (profiles_of d u) = 1%nat.

(** The statement deletes the garage of key [g]. *)
Definition deletes_garage (ev : event) (g : uuid) : Prop :=
  match ev with
  | Request _ _ (DeleteRow t k) => is_garages t = true /\ k = g
  | _ => False
  end.

(** The statement updates the sale of key [k]. *)
Definition updates_sale (ev : event) (k : uuid) : Prop :=
  match ev with
  | Request _ _ (UpdateRow t k' _) => is_ventes t = true /\ k' = k
  | _ => False
  end.

(** A delete statement that leaves a sale without the row it references is
    rejected: either the row is not there for the caller, or the foreign key
    of the sale is reported. *)
Definition restricted (res : result db) (fkey : string) : Prop :=
  res = Err NotFound
  \/ exists names, res = Err (ConstraintViolation names) /\ In fkey names.

(** No sale recorded under another garage references a car or a client of
    garage [k]: the rows that the deletion of the garage cascades to are
    referenced by no sale that the cascade leaves. *)
Definition no_foreign_sale (d : db) (k : uuid) : Prop :=
  forall v, In v (ventes_rows d) -> Ventes.garage_id v <> k ->
    (forall c, In c (voitures_rows d) ->
               Voitures.id c = Ventes.voiture_id v -> Voitures.garage_id c <> k)
    /\ (forall c, In c (clients_rows d) ->
                  Clients.id c = Ventes.client_id v -> Clients.garage_id c <> k).

(* ------------------------------------------------------------------------- *)
(** ** A sample database

    Two garages; an administrator (identity 1), an employee (2) and a manager
    (4) of garage 10, and an identity with no garage (3); one car, one client
    and one sale in garage 10. *)

Definition sample : db :=
  mkdb
    [ AuthUsers.mk 1 (Some "admin@autopro.fr") [];
      AuthUsers.mk 2 (Some "vendeur@autopro.fr") [("nom", "Martin")];
      AuthUsers.mk 3 None [];
      AuthUsers.mk 4 (Some "chef@autopro.fr") [] ]
    [ Garages.mk 10 "Garage A" None None None 5 5;
      Garages.mk 20 "Garage B" None None None 5 5 ]
    [ Profiles.mk 100 1 "Nouveau" "Utilisateur" (Some "admin@autopro.fr")
        None (Some 10%N) 5 5;
      Profiles.mk 200 2 "Martin" "Utilisateur" (Some "vendeur@autopro.fr")
        None (Some 10%N) 5 5;
      Profiles.mk 300 3 "Nouveau" "Utilisateur" None None None 5 5;
      Profiles.mk 400 4 "Nouveau" "Utilisateur" (Some "chef@autopro.fr")
        None (Some 10%N) 5 5 ]
    [ UserRoles.mk 1000 1 employe 5;
      UserRoles.mk 1001 1 admin 5;
      UserRoles.mk 1002 2 employe 5;
      UserRoles.mk 1003 3 employe 5;
      UserRoles.mk 1004 4 employe 5;
      UserRoles.mk 1005 4 responsable 5 ]
    [ Voitures.mk 500 10 "Renault" "Clio" 2020 1500000 (Some 42000)
        "essence" "occasion" true None None None 5 5 ]
    [ Clients.mk 600 10 "Durand" "Anne" None None None 5 5 ]
    [ Ventes.mk 700 500 600 200 10 1450000 6 None 6 ].

Definition sample_sale : Ventes.row := Ventes.mk 700 500 600 200 10 1450000 6 None 6.

(** A sale recorded under garage 20. *)
Definition sale_garage_20 : Ventes.row :=
  Ventes.mk 701 500 600 100 20 1400000 7 None 7.

Definition sample_car : Voitures.row :=
  Voitures.mk 500 10 "Renault" "Clio" 2020 1500000 (Some 42000)
    "essence" "occasion" true None None None 5 5.

Definition sample_client : Clients.row :=
  Clients.mk 600 10 "Durand" "Anne" None None None 5 5.

(** A garage inserted with an [updated_at] of its own. *)
Definition garage_30 : Garages.row :=
  Garages.mk 30 "Garage C" None None None 50 100.

(** The sample database after the administrator has moved its own profile to
    garage 20 and recorded there the sale of the car of garage 10. *)
Definition crossed : db :=
  run sample
    [ Request (Authenticated 1) 8
        (UpdateRow profiles 100
           (fun p => Profiles.mk (Profiles.id p) (Profiles.user_id p)
                       (Profiles.nom p) (Profiles.prenom p) (Profiles.email p)
                       (Profiles.telephone p) (Some 20%N)
                       (Profiles.created_at p) (Profiles.updated_at p)));
      Request (Authenticated 1) 9 (InsertInto ventes sale_garage_20) ].

(** An identity that signs up with a first name only. *)
Definition sample_new_user : AuthUsers.row :=
  AuthUsers.mk 5 (Some "zoe@autopro.fr") [("prenom", "Zoe")].

Definition set_garage (g : option uuid) (p : Profiles.row) : Profiles.row :=
  Profiles.mk (Profiles.id p) (Profiles.user_id p) (Profiles.nom p)
    (Profiles.prenom p) (Profiles.email p) (Profiles.telephone p)
    g (Profiles.created_at p) (Profiles.updated_at p).

(* ------------------------------------------------------------------------- *)
(** ** Reading and writing through the client library *)

(** [supabase.from(t).select()]: the rows of the table that pass the SELECT
    policies for the session (the order of the answer left aside). *)
Definition visible {R} (t : table R) (d : db) (s : session) : list R :=
  filter (fun r => authorize t d s (Select r)) (rows t d).

(** The [error] member of the answer to a statement.  An UPDATE or a DELETE
    that finds no row for the caller is answered without error. *)
Definition reported (res : result db) : option error :=
  match res with
  | Ok _ => None
  | Err NotFound => None
  | Err e => Some e
  end.

(** The state a statement leaves. *)
Definition state_after (d : db) (res : result db) : db :=
  match res with
  | Ok d' => d'
  | Err _ => d
  end.

(** A statement that is not committed, the named constraint being among the
    broken ones when it is constraints that refuse it. *)
Definition rejected (res : result db) (name : string) : Prop :=
  res = Err AuthorizationDenied
  \/ res = Err NotFound
  \/ exists names, res = Err (ConstraintViolation names) /\ In name names.

(** What a page shows when a handler ends: [toast.success(message)] or
    [toast.error(message)].  The error the library reports is a plain object
    and no instance of [Error], so [error instanceof Error ? error.message :
    text] in a catch clause is the text of the page. *)
Inductive toast :=
| toast_success (message : string)
| toast_error (message : string).

(** [update({ disponible: b })] on a car. *)
Definition set_disponible (b : bool) (v : Voitures.row) : Voitures.row :=
  Voitures.mk (Voitures.id v) (Voitures.garage_id v) (Voitures.marque v)
    (Voitures.modele v) (Voitures.annee v) (Voitures.prix v)
    (Voitures.kilometrage v) (Voitures.carburant v) (Voitures.etat v)
    b (Voitures.couleur v) (Voitures.description v) (Voitures.image_url v)
    (Voitures.created_at v) (Voitures.updated_at v).

(** *** The sales page *)

Module VentesPage.

(** The state of the form.  The submit button is disabled until a car and a
    client are chosen among the fetched rows, so both are keys;
    [prix_vente] is the amount as the column stores it. *)
Record formData := mkForm {
    voiture_id : uuid;
    client_id : uuid;
    prix_vente : Z;
    notes : string
  }.

(** [formData.notes || null] *)
Definition notes_or_null (f : formData) : option string :=
  if String.eqb (notes f) "" then None else Some (notes f).

(** The row [insert([{ voiture_id, client_id, employe_id: profile.id,
    garage_id: profile.garage_id, prix_vente, notes }])] proposes; [id] is
    the value [gen_random_uuid()] draws, [date_vente] and [created_at]
    default to [now()]. *)
Definition new_sale (p : Profiles.row) (g : uuid) (f : formData)
    (now : timestamptz) (id : uuid) : Ventes.row :=
  Ventes.mk id (voiture_id f) (client_id f) (Profiles.id p) g
    (prix_vente f) now (notes_or_null f) now.

(** [handleSubmit]: without profile or garage nothing is sent; otherwise the
    sale is inserted and then, in a second request, the car is marked
    unavailable; a reported error ends the handler with the error text of the
    page.  [profile] is the profile the authentication context holds;
    [now1] and [now2] are the times of the two requests. *)
Definition handleSubmit (d : db) (s : session) (profile : option Profiles.row)
    (f : formData) (now1 now2 : timestamptz) (id : uuid) : db * toast :=
  match profile with
  | None => (d, toast_error "Erreur: profil ou garage non trouvé")
  | Some p =>
      match Profiles.garage_id p with
      | None => (d, toast_error "Erreur: profil ou garage non trouvé")
      | Some g =>
          let res1 :=
            exec d s now1 (InsertInto ventes (new_sale p g f now1 id)) in
          match reported res1 with
          | Some _ =>
              (d, toast_error "Erreur lors de l'enregistrement de la vente")
          | None =>
              let d1 := state_after d res1 in
              let res2 :=
                exec d1 s now2
                  (UpdateRow voitures (voiture_id f) (set_disponible false)) in
              match reported res2 with
              | Some _ =>
                  (d1, toast_error "Erreur lors de l'enregistrement de la vente")
              | None =>
                  (state_after d1 res2,
                   toast_success "Vente enregistrée avec succès !")
              end
          end
      end
  end.


End VentesPage.

(** *** The garages page *)

Module GaragesPage.

Record formData := mkForm {
    nom : string;
    adresse : string;
    telephone : string;
    email : string
  }.

(** [x || ''] on a nullable text. *)
Definition or_empty (x : option string) : string :=
  match x with Some a => a | None => "" end.

(** [handleEdit]: the form is filled from the garage. *)
Definition handleEdit (garage : Garages.row) : formData :=
  mkForm (Garages.nom garage) (or_empty (Garages.adresse garage))
         (or_empty (Garages.telephone garage)) (or_empty (Garages.email garage)).

(** [update(formData)]: the four columns of the form are set. *)
Definition update_of (f : formData) (g : Garages.row) : Garages.row :=
  Garages.mk (Garages.id g) (nom f) (Some (adresse f)) (Some (telephone f))
    (Some (email f)) (Garages.created_at g) (Garages.updated_at g).

(** [insert([formData])]: the other columns take their defaults. *)
Definition insert_of (f : formData) (now : timestamptz) (id : uuid)
  : Garages.row :=
  Garages.mk id (nom f) (Some (adresse f)) (Some (telephone f))
    (Some (email f)) now now.

(** [handleSubmit], for the garage being edited or for a new one. *)
Definition handleSubmit (d : db) (s : session)
    (editingGarage : option Garages.row) (f : formData) (now : timestamptz)
    (id : uuid) : db * toast :=
  match editingGarage with
  | Some g =>
      let res := exec d s now (UpdateRow garages (Garages.id g) (update_of f)) in
      match reported res with
      | Some _ => (d, toast_error "Erreur lors de l'enregistrement")
      | None => (state_after d res, toast_success "Garage modifié avec succès")
      end
  | None =>
      let res := exec d s now (InsertInto garages (insert_of f now id)) in
      match reported res with
      | Some _ => (d, toast_error "Erreur lors de l'enregistrement")
      | None => (state_after d res, toast_success "Garage créé avec succès")
      end
  end.

End GaragesPage.

(** *** The statistics page *)

Module Statistiques.

(** [v.voiture?.carburant || 'Inconnu']: the fuel of the car of a sale, when
    the car is read and has one. *)
Definition carburant_of (c : option string) : string :=
  match c with
  | Some x => if String.eqb x "" then "Inconnu" else x
  | None => "Inconnu"
  end.

(** [carburantCount[k] = (carburantCount[k] || 0) + 1] *)
Fixpoint increment (k : string) (counts : list (string * nat))
  : list (string * nat) :=
  match counts with
  | [] => [(k, 1%nat)]
  | (k', n) :: rest =>
      if String.eqb k' k then (k', S n) :: rest
      else (k', n) :: increment k rest
  end.

(** The loop over the sales that fills [carburantCount]; the object is kept
    as the list of its entries, in the order the keys were first set. *)
Definition carburantCount (sales : list (option string))
  : list (string * nat) :=
  fold_left (fun counts c => increment (carburant_of c) counts) sales [].

(** [carburantCount[k]], 0 for an absent key. *)
Fixpoint count_of (k : string) (counts : list (string * nat)) : nat :=
  match counts with
  | [] => 0%nat
  | (k', n) :: rest => if String.eqb k' k then n else count_of k rest
  end.

End Statistiques.

(** *** The cars page *)

Module VoituresPage.

Section Filters.

(** [String.prototype.toLowerCase], of the platform. *)
Variable toLowerCase : string -> string.

(** [s.includes(sub)] *)
Fixpoint includes (s sub : string) : bool :=
  if String.prefix sub s then true
  else match s with
       | EmptyString => false
       | String _ s' => includes s' sub
       end.

(** The three tests of the effect that fills [filteredVoitures]; an empty
    search term and the value ['all'] of a select switch a test off. *)
Definition matches_search (searchTerm : string) (v : Voitures.row) : bool :=
  if String.eqb searchTerm "" then true
  else includes (toLowerCase (Voitures.marque v)) (toLowerCase searchTerm)
       || includes (toLowerCase (Voitures.modele v)) (toLowerCase searchTerm).

Definition matches_carburant (filterCarburant : string) (v : Voitures.row)
  : bool :=
  if String.eqb filterCarburant "all" then true
  else String.eqb (Voitures.carburant v) filterCarburant.

Definition matches_disponible (filterDisponible : string) (v : Voitures.row)
  : bool :=
  if String.eqb filterDisponible "all" then true
  else Bool.eqb (Voitures.disponible v) (String.eqb filterDisponible "true").

(** [filtered = voitures], then one [filter] for each test that is on. *)
Definition filteredVoitures (voitures : list Voitures.row)
    (searchTerm filterCarburant filterDisponible : string)
  : list Voitures.row :=
  let filtered := voitures in
  let filtered :=
    if String.eqb searchTerm "" then filtered
    else filter (fun v =>
                   includes (toLowerCase (Voitures.marque v))
                            (toLowerCase searchTerm)
                   || includes (toLowerCase (Voitures.modele v))
                               (toLowerCase searchTerm))
                filtered in
  let filtered :=
    if String.eqb filterCarburant "all" then filtered
    else filter (fun v => String.eqb (Voitures.carburant v) filterCarburant)
                filtered in
  if String.eqb filterDisponible "all" then filtered
  else filter (fun v => Bool.eqb (Voitures.disponible v)
                                 (String.eqb filterDisponible "true"))
              filtered.

End Filters.

End VoituresPage.

(* ------------------------------------------------------------------------- *)
(** * Properties of the authorization decision *)

Lemma valid_sample : valid sample.
Proof. vm_compute. reflexivity. Qed.

Lemma sql_eq_true_iff (a : uuid) (b : option uuid) :
  is_true (sql_eq (Some a) b) = true <-> b = Some a.
Proof.
  destruct b as [y|]; simpl; split; intro H; try discriminate.
  - destruct (N.eqb_spec a y); [subst; reflexivity | discriminate].
  - injection H as ->. now rewrite N.eqb_refl.
Qed.

Lemma has_role_anon (d : db) (a : app_role) : has_role d None a = false.
Proof.
  unfold has_role. induction (user_roles_rows d) as [|r l IH]; auto.
  cbn [existsb]. rewrite IH.
  now destruct (app_role_eqb (UserRoles.role r) a).
Qed.

Lemma get_user_garage_anon (d : db) : get_user_garage d None = None.
Proof.
  unfold get_user_garage.
  induction (profiles_rows d) as [|p l IH]; simpl; auto.
Qed.

(** No policy applies to the role of an anonymous session. *)
Lemma authorize_anon {R} (t : table R) (d : db) (q : dml R) :
  authorize t d Anon q = false.
Proof. destruct t, q; reflexivity. Qed.

Section Caller.

Variable d : db.
Variable u : uuid.

Let s := Authenticated u.

(** The three policy expressions on a garage-scoped row, for a caller whose
    roles and garage are known. *)
Lemma view_expr_decided {R} (gid : R -> uuid) (r : R) :
  is_true (view_expr gid d s r)
  = (match get_user_garage d (Some u) with
     | Some G => N.eqb (gid r) G
     | None => false
     end
     || has_role d (Some u) admin)%bool.
Proof.
  unfold view_expr; simpl.
  destruct (get_user_garage d (Some u)) as [G|]; simpl;
    [destruct (N.eqb (gid r) G)|]; destruct (has_role d (Some u) admin);
    reflexivity.
Qed.

Lemma manage_expr_decided {R} (gid : R -> uuid) (r : R) :
  is_true (manage_expr gid d s r)
  = (match get_user_garage d (Some u) with
     | Some G => N.eqb (gid r) G && has_role d (Some u) responsable
     | None => false
     end
     || has_role d (Some u) admin)%bool.
Proof.
  unfold manage_expr; simpl.
  destruct (get_user_garage d (Some u)) as [G|]; simpl;
    [destruct (N.eqb (gid r) G)|];
    destruct (has_role d (Some u) responsable);
    destruct (has_role d (Some u) admin); reflexivity.
Qed.

Lemma own_garage_decided (g : uuid) :
  is_true (sql_eq (Some g) (get_user_garage d (Some u)))
  = match get_user_garage d (Some u) with
    | Some G => N.eqb g G
    | None => false
    end.
Proof.
  destruct (get_user_garage d (Some u)) as [G|]; simpl;
    [destruct (N.eqb g G)|]; reflexivity.
Qed.

End Caller.

(** Unfolds the decision down to the roles and the garage of the caller. *)
Ltac decide_rls :=
  unfold authorize, passes_using, passes_check, applies; cbn [policies tenant
    garages_policies profiles_policies user_roles_policies voitures_policies
    clients_policies ventes_policies existsb polcmd polroles polqual
    polwithcheck command_eqb current_role db_role_eqb andb orb auth_uid];
  rewrite ?view_expr_decided, ?manage_expr_decided, ?own_garage_decided;
  unfold is_admin; cbn [auth_uid is_true].

(** [get_user_garage] finds no garage for a caller none of whose profiles has
    one, and in particular for a caller without profile. *)
Lemma get_user_garage_unassigned (d : db) (u : uuid) :
  (forall p, In p (profiles_rows d) ->
             Profiles.user_id p = u -> Profiles.garage_id p = None) ->
  get_user_garage d (Some u) = None.
Proof.
  intro H. unfold get_user_garage.
  destruct (find _ (profiles_rows d)) as [p|] eqn:E; [|reflexivity].
  apply find_some in E as [Hin Hu].
  apply H; [exact Hin|].
  apply sql_eq_true_iff in Hu. now injection Hu.
Qed.

(** The WITH CHECK expression of "Authenticated users can create sales" is
    the only one that applies to the insert of a sale. *)
Lemma ventes_insert_decided (d : db) (s : session) (r : Ventes.row) :
  authorize ventes d s (Insert r) = true
  <-> get_user_garage d (auth_uid s) = Some (Ventes.garage_id r).
Proof.
  destruct s as [|u].
  - rewrite authorize_anon. simpl. rewrite get_user_garage_anon.
    split; discriminate.
  - decide_rls. rewrite orb_false_r.
    destruct (get_user_garage d (Some u)) as [G|]; [|split; discriminate].
    destruct (N.eqb_spec (Ventes.garage_id r) G) as [->|Hne];
      split; intro H; try reflexivity; try discriminate.
    injection H as H. now elim Hne.
Qed.

(** C2. A sale insert is permitted if and only if the [garage_id] of the
    inserted row is the garage of the caller's own profile.  It is denied for
    any other row, also to an administrator whose profile has another garage,
    and to a caller whose profile has no garage. *)
Theorem sale_insert_iff_own_garage :
  (forall d s r,
      authorize ventes d s (Insert r) = true
      <-> get_user_garage d (auth_uid s) = Some (Ventes.garage_id r))
  /\ (forall d u r G,
         has_role d (Some u) admin = true ->
         get_user_garage d (Some u) = Some G -> Ventes.garage_id r <> G ->
         authorize ventes d (Authenticated u) (Insert r) = false)
  /\ (forall d u r,
         get_user_garage d (Some u) = None ->
         authorize ventes d (Authenticated u) (Insert r) = false).
Proof.
  split; [exact ventes_insert_decided|split].
  - intros d u r G _ HG Hne.
    apply not_true_is_false. intro H. apply ventes_insert_decided in H.
    simpl in H. rewrite HG in H. injection H as H. now elim Hne.
  - intros d u r HG.
    apply not_true_is_false. intro H. apply ventes_insert_decided in H.
    simpl in H. rewrite HG in H. discriminate.
Qed.

Lemma sale_insert_iff_own_garage_witness :
  authorize ventes sample (Authenticated 2) (Insert sample_sale) = true
  /\ authorize ventes sample (Authenticated 1) (Insert sale_garage_20) = false
  /\ authorize ventes sample (Authenticated 3) (Insert sample_sale) = false.
Proof.
  destruct sale_insert_iff_own_garage as (Hiff & Hadmin & Hnone).
  split; [|split].
  - apply Hiff. reflexivity.
  - apply (Hadmin sample 1%N sale_garage_20 10%N);
      [reflexivity | reflexivity | discriminate].
  - apply Hnone. reflexivity.
Defined.

(** On every table a write is permitted only on rows the caller may read. *)
Lemma write_implies_read {R} (t : table R) (d : db) (s : session) (q : dml R) :
  authorize t d s q = true ->
  match q with
  | Select r | Insert r | Delete r => authorize t d s (Select r) = true
  | Update old new =>
      authorize t d s (Select old) = true
      /\ authorize t d s (Select new) = true
  end.
Proof.
  destruct s as [|u]; [now rewrite authorize_anon|].
  destruct t, q; try (intro H; exact H); decide_rls; cbn [sql_eq];
    repeat match goal with
           | |- context [has_role d (Some u) ?a] =>
               destruct (has_role d (Some u) a)
           | |- context [get_user_garage d (Some u)] =>
               destruct (get_user_garage d (Some u))
           | |- context [N.eqb ?a ?b] => destruct (N.eqb a b)
           end;
    cbn; intuition discriminate.
Qed.

(** Picks the garage column of a garage-scoped table. *)
Ltac scoped t H :=
  destruct t; cbn [tenant is_ventes] in *; try discriminate;
  injection H as <-.

Ltac by_garage_test :=
  repeat match goal with
         | |- context [N.eqb ?a ?b] => destruct (N.eqb_spec a b); subst
         end;
  cbn [andb orb]; try tauto; try (split; intros; try discriminate; tauto);
  try (split; [discriminate|]; intros; tauto).

(** C5. A caller without the admin role whose profile has garage [G] reads a
    car, a client or a sale if and only if the row's [garage_id] is [G]; the
    rows of any other garage are not visible to that caller. *)
Theorem read_iff_own_garage (d : db) (u G : uuid) :
  has_role d (Some u) admin = false ->
  get_user_garage d (Some u) = Some G ->
  forall R (t : table R) (garage_id : R -> uuid),
    tenant t = Some garage_id ->
    forall r : R,
      authorize t d (Authenticated u) (Select r) = true <-> garage_id r = G.
Proof.
  intros Hadmin HG R t gid Ht r.
  scoped t Ht; decide_rls; rewrite Hadmin, HG;
    destruct (has_role d (Some u) responsable); by_garage_test.
Qed.

Lemma read_iff_own_garage_witness :
  authorize voitures sample (Authenticated 2) (Select sample_car) = true
  /\ authorize ventes sample (Authenticated 2) (Select sale_garage_20) = false.
Proof.
  assert (H := @read_iff_own_garage sample 2%N 10%N eq_refl eq_refl).
  split.
  - apply (H _ voitures Voitures.garage_id eq_refl sample_car). reflexivity.
  - apply not_true_is_false. intro E.
    apply (H _ ventes Ventes.garage_id eq_refl sale_garage_20) in E.
    discriminate.
Defined.

(** C4. A manager (role [responsable]) of garage [G] without the admin role
    may insert, update and delete the cars and clients of garage [G] and no
    others; a caller with neither the [responsable] nor the admin role, so one
    that holds the employee role only, is denied these writes whatever the
    garage of the row. *)
Theorem manager_writes_own_garage (d : db) (u : uuid) :
  has_role d (Some u) admin = false ->
  forall R (t : table R) (garage_id : R -> uuid),
    tenant t = Some garage_id -> is_ventes t = false ->
    (forall G,
        has_role d (Some u) responsable = true ->
        get_user_garage d (Some u) = Some G ->
        (forall r, authorize t d (Authenticated u) (Insert r) = true
                   <-> garage_id r = G)
        /\ (forall old new,
               authorize t d (Authenticated u) (Update old new) = true
               <-> garage_id old = G /\ garage_id new = G)
        /\ (forall r, authorize t d (Authenticated u) (Delete r) = true
                      <-> garage_id r = G))
    /\ (has_role d (Some u) responsable = false ->
        forall q, is_write q = true ->
                  authorize t d (Authenticated u) q = false).
Proof.
  intros Hadmin R t gid Ht Hv.
  scoped t Ht;
    (split; [intros G Hresp HG; (split; [|split]); intros
            | intros Hresp q Hq]).
  all: try (destruct q; try discriminate Hq).
  all: decide_rls; rewrite Hadmin, Hresp; try rewrite HG.
  all: try (destruct (get_user_garage d (Some u));
            rewrite ?andb_false_r; reflexivity).
  all: by_garage_test.
Qed.

Lemma manager_writes_own_garage_witness :
  authorize voitures sample (Authenticated 4) (Delete sample_car) = true
  /\ authorize clients sample (Authenticated 2) (Delete sample_client) = false.
Proof.
  split.
  - destruct (@manager_writes_own_garage sample 4%N eq_refl _ voitures
                Voitures.garage_id eq_refl eq_refl) as [Hm _].
    destruct (Hm 10%N eq_refl eq_refl) as (_ & _ & Hdel).
    apply Hdel. reflexivity.
  - destruct (@manager_writes_own_garage sample 2%N eq_refl _ clients
                Clients.garage_id eq_refl eq_refl) as [_ He].
    apply He; reflexivity.
Defined.

(** C8. A caller without the admin role who has no profile, or whose profile
    has no garage, is denied every operation on cars, clients and sales and
    reads no garage: the garage of the caller resolves to NULL, which equals
    the garage of no row. *)
Theorem unassigned_caller_denied (d : db) (u : uuid) :
  has_role d (Some u) admin = false ->
  (forall p, In p (profiles_rows d) ->
             Profiles.user_id p = u -> Profiles.garage_id p = None) ->
  (forall R (t : table R) (garage_id : R -> uuid) (q : dml R),
      tenant t = Some garage_id ->
      authorize t d (Authenticated u) q = false)
  /\ (forall g, authorize garages d (Authenticated u) (Select g) = false).
Proof.
  intros Hadmin Hp. apply get_user_garage_unassigned in Hp. split.
  - intros R t gid q Ht.
    scoped t Ht; destruct q; decide_rls; rewrite ?Hadmin, ?Hp; reflexivity.
  - intro g. decide_rls. rewrite Hadmin, Hp. reflexivity.
Qed.

Lemma unassigned_caller_denied_witness :
  authorize ventes sample (Authenticated 3) (Insert sample_sale) = false
  /\ authorize voitures sample (Authenticated 9) (Select sample_car) = false.
Proof.
  split.
  - refine (proj1 (@unassigned_caller_denied sample 3%N eq_refl _)
              _ ventes Ventes.garage_id _ eq_refl).
    intros p Hin Hu. simpl in Hin.
    repeat (destruct Hin as [<-|Hin]; [try discriminate Hu; reflexivity|]).
    destruct Hin.
  - refine (proj1 (@unassigned_caller_denied sample 9%N eq_refl _)
              _ voitures Voitures.garage_id _ eq_refl).
    intros p Hin Hu. simpl in Hin.
    repeat (destruct Hin as [<-|Hin]; [try discriminate Hu; reflexivity|]).
    destruct Hin.
Defined.

(** C1, as stated, fails.  Identity 1 of the sample database holds the admin
    role and its profile is in garage 10: it is denied the insert of a sale
    under garage 20, and the delete of a sale. *)
Lemma admin_denied_sale_insert_and_delete :
  has_role sample (Some 1%N) admin = true
  /\ get_user_garage sample (Some 1%N) = Some 10%N
  /\ Ventes.garage_id sale_garage_20 = 20%N
  /\ authorize ventes sample (Authenticated 1) (Insert sale_garage_20) = false
  /\ authorize ventes sample (Authenticated 1) (Delete sample_sale) = false.
Proof. repeat split. Qed.

(** C1, amended.  A caller with the admin role is permitted every operation
    on garages, profiles, role assignments, cars and clients, and the select
    and the update of every sale, whatever the garage of its own profile.  The
    insert of a sale is permitted to it exactly when the row's garage is the
    garage of its own profile, and the delete of a sale is denied. *)
Theorem admin_permitted (d : db) (u : uuid) :
  has_role d (Some u) admin = true ->
  (forall R (t : table R) (q : dml R),
      is_ventes t && (is_insert q || is_delete q) = false ->
      authorize t d (Authenticated u) q = true)
  /\ (forall r, authorize ventes d (Authenticated u) (Insert r) = true
                <-> get_user_garage d (Some u) = Some (Ventes.garage_id r))
  /\ (forall r, authorize ventes d (Authenticated u) (Delete r) = false).
Proof.
  intro Hadmin. split; [|split].
  - intros R t q Hq.
    destruct t, q; try discriminate Hq; decide_rls; rewrite Hadmin;
      rewrite ?orb_true_r; reflexivity.
  - intro r. apply (ventes_insert_decided d (Authenticated u) r).
  - intro r. reflexivity.
Qed.

Lemma admin_permitted_witness :
  authorize voitures sample (Authenticated 1)
    (Update sample_car (set_updated_at 9 sample_car)) = true
  /\ authorize ventes sample (Authenticated 1) (Select sale_garage_20) = true.
Proof.
  destruct (@admin_permitted sample 1%N eq_refl) as (H & _ & _).
  split; apply H; reflexivity.
Defined.

(* ------------------------------------------------------------------------- *)
(** * Constraints and reachable states *)

Lemma valid_holds (d : db) :
  valid d -> forall c, In c constraints -> snd c d = true.
Proof.
  unfold valid, violated. intros H c Hin.
  destruct (snd c d) eqn:E; [reflexivity|].
  assert (Hf : In c (filter (fun c => negb (snd c d)) constraints)).
  { apply filter_In. split; [exact Hin | now rewrite E]. }
  apply (in_map fst) in Hf. rewrite H in Hf. destruct Hf.
Qed.

Lemma valid_intro (d : db) :
  (forall c, In c constraints -> snd c d = true) -> valid d.
Proof.
  unfold valid, violated. intro H.
  induction constraints as [|c l IH]; [reflexivity|].
  cbn [filter]. rewrite (H c (or_introl eq_refl)). cbn [negb].
  apply IH. intros c' Hin. apply H. now right.
Qed.

(** A broken constraint is reported under its name. *)
Lemma violated_In (d : db) (name : string) (chk : db -> bool) :
  In (name, chk) constraints -> chk d = false -> In name (violated d).
Proof.
  intros Hin Hf. unfold violated.
  apply (in_map fst _ (name, chk)). apply filter_In.
  split; [exact Hin | cbn [snd]; now rewrite Hf].
Qed.

Lemma check_constraints_Ok (d d' : db) :
  check_constraints d = Ok d' <-> valid d /\ d' = d.
Proof.
  unfold check_constraints, valid.
  destruct (violated d); split.
  - intro H. injection H as <-. now split.
  - intros [_ ->]. reflexivity.
  - discriminate.
  - intros [H _]. discriminate.
Qed.

Lemma check_constraints_Err (d : db) (e : error) :
  check_constraints d = Err e -> e = ConstraintViolation (violated d).
Proof.
  unfold check_constraints. destruct (violated d); [discriminate|].
  intro H. now injection H as <-.
Qed.

(** Whatever is committed breaks no constraint. *)
Lemma exec_valid (d d' : db) (s : session) (now : timestamptz) (q : statement) :
  exec d s now q = Ok d' -> valid d'.
Proof.
  destruct q as [R t r|R t k set|R t k]; cbn [exec];
    unfold exec_insert, exec_update, exec_delete.
  - destruct (passes_check _ _ _ _ _); [|discriminate].
    intro H. apply check_constraints_Ok in H as [H ->]. exact H.
  - destruct (lookup_row t k d) as [old|]; [|discriminate].
    destruct (passes_using _ _ _ _ _); [|discriminate].
    cbv zeta. destruct (passes_check _ _ _ _ _); [|discriminate].
    intro H. apply check_constraints_Ok in H as [H ->]. exact H.
  - destruct (lookup_row t k d) as [old|]; [|discriminate].
    destruct (passes_using _ _ _ _ _); [|discriminate].
    intro H. apply check_constraints_Ok in H as [H ->]. exact H.
Qed.

Lemma exec_event_valid (d d' : db) (ev : event) :
  exec_event d ev = Ok d' -> valid d'.
Proof.
  destruct ev as [s now q|now pid rid new]; cbn [exec_event].
  - apply exec_valid.
  - unfold insert_auth_user. intro H.
    apply check_constraints_Ok in H as [H ->]. exact H.
Qed.

Lemma apply_event_valid (d : db) (ev : event) :
  valid d -> valid (apply_event d ev).
Proof.
  intro H. unfold apply_event.
  destruct (exec_event d ev) as [d'|e] eqn:E; [|exact H].
  apply (exec_event_valid _ _ E).
Qed.

Lemma run_valid (evs : list event) :
  forall d, valid d -> valid (run d evs).
Proof.
  induction evs as [|ev evs IH]; intros d H; [exact H|].
  apply IH, apply_event_valid, H.
Qed.

Lemma reachable_valid (d : db) : reachable d -> valid d.
Proof. intros (d0 & evs & H0 & <-). now apply run_valid. Qed.

(** Finds a named constraint in the list. *)
Ltac find_constraint :=
  cbn [constraints In]; repeat first [left; reflexivity | right].

(** Adds, as [H], that the valid database of [Hv] passes the constraint of
    that name. *)
Ltac constraint Hv name H :=
  let cs := eval cbv [constraints] in constraints in
  match cs with
  | context [ (name, ?chk) ] =>
      pose proof (@valid_holds _ Hv (name, chk) ltac:(find_constraint)) as H;
      cbn [snd] in H
  end.

(* ------------------------------------------------------------------------- *)
(** ** Keys *)

Lemma refers_In (keys : list uuid) (k : uuid) :
  refers keys k = true <-> In k keys.
Proof.
  unfold refers. rewrite existsb_exists. split.
  - intros (x & Hin & E). apply N.eqb_eq in E. now subst.
  - intro H. exists k. split; [exact H | apply N.eqb_refl].
Qed.

Lemma distinct_NoDup (l : list uuid) : distinct l = true <-> NoDup l.
Proof.
  unfold distinct. induction l as [|x l IH]; cbn [distinct_by].
  - split; [constructor | reflexivity].
  - change (existsb (N.eqb x) l) with (refers l x).
    rewrite andb_true_iff, negb_true_iff, IH. split.
    + intros [Hx Hl]. constructor; [|exact Hl].
      intro Hin. apply refers_In in Hin. congruence.
    + intro H. inversion H as [|? ? Hx Hl]; subst. split; [|exact Hl].
      apply not_true_is_false. intro E. apply Hx. now apply refers_In.
Qed.

(* ------------------------------------------------------------------------- *)
(** * Committed events *)

(** What a committed statement went through: the row it found, the decision
    it passed and the state it produced. *)
Lemma committed_insert {R} (t : table R) (d d' : db) (s : session)
    (now : timestamptz) (r : R) :
  exec_event d (Request s now (InsertInto t r)) = Ok d' ->
  authorize t d s (Insert r) = true
  /\ valid d'
  /\ d' = set_rows t (rows t d ++ [r]) d.
Proof.
  cbn [exec_event exec authorize]. unfold exec_insert.
  destruct (passes_check (policies t) INSERT d s r); [|discriminate].
  intro H. apply check_constraints_Ok in H as [H ->]. auto.
Qed.

Lemma committed_update {R} (t : table R) (d d' : db) (s : session)
    (now : timestamptz) (k : uuid) (set : R -> R) :
  exec_event d (Request s now (UpdateRow t k set)) = Ok d' ->
  exists old,
    lookup_row t k d = Some old
    /\ authorize t d s (Update old (before_update t now (set old))) = true
    /\ valid d'
    /\ d' = set_rows t
               (replace_row t k (before_update t now (set old)) (rows t d)) d.
Proof.
  cbn [exec_event exec authorize]. unfold exec_update.
  destruct (lookup_row t k d) as [old|]; [|discriminate].
  destruct (passes_using (policies t) UPDATE d s old) eqn:Eu; [|discriminate].
  cbv zeta.
  destruct (passes_check (policies t) UPDATE d s _) eqn:Ec; [|discriminate].
  intro H. apply check_constraints_Ok in H as [H ->].
  exists old. rewrite Eu, Ec. repeat split; exact H.
Qed.

Lemma committed_delete {R} (t : table R) (d d' : db) (s : session)
    (now : timestamptz) (k : uuid) :
  exec_event d (Request s now (DeleteRow t k)) = Ok d' ->
  exists old,
    lookup_row t k d = Some old
    /\ authorize t d s (Delete old) = true
    /\ valid d'
    /\ d' = on_delete t now k (set_rows t (remove_row t k (rows t d)) d).
Proof.
  cbn [exec_event exec authorize]. unfold exec_delete.
  destruct (lookup_row t k d) as [old|]; [|discriminate].
  destruct (passes_using (policies t) DELETE d s old) eqn:Eu; [|discriminate].
  intro H. apply check_constraints_Ok in H as [H ->].
  exists old. rewrite Eu. repeat split; exact H.
Qed.

Lemma committed_signup (d d' : db) (now : timestamptz) (pid rid : uuid)
    (new : AuthUsers.row) :
  exec_event d (SignUp now pid rid new) = Ok d' ->
  valid d'
  /\ d' = handle_new_user now pid rid new
            (mkdb (auth_users_rows d ++ [new]) (garages_rows d)
                  (profiles_rows d) (user_roles_rows d) (voitures_rows d)
                  (clients_rows d) (ventes_rows d)).
Proof.
  cbn [exec_event]. unfold insert_auth_user.
  intro H. apply check_constraints_Ok in H as [H ->]. auto.
Qed.

Ltac committed H :=
  let Hvalid := fresh "Hvalid" in
  let Hpass := fresh "Hpass" in
  let Hfound := fresh "Hfound" in
  let old := fresh "old" in
  first
    [ apply committed_insert in H; destruct H as (Hpass & Hvalid & ->)
    | apply committed_update in H;
      destruct H as (old & Hfound & Hpass & Hvalid & ->)
    | apply committed_delete in H;
      destruct H as (old & Hfound & Hpass & Hvalid & ->)
    | apply committed_signup in H; destruct H as (Hvalid & ->) ].

Lemma In_replace_row {R} (t : table R) (k : uuid) (new r : R) (l : list R) :
  In r l -> pk t r <> k -> In r (replace_row t k new l).
Proof.
  intros Hin Hk. unfold replace_row. apply in_map_iff. exists r.
  split; [|exact Hin].
  destruct (N.eqb_spec (pk t r) k); [contradiction | reflexivity].
Qed.

Lemma length_replace_row {R} (t : table R) (k : uuid) (new : R) (l : list R) :
  List.length (replace_row t k new l) = List.length l.
Proof. apply length_map. Qed.

(* ------------------------------------------------------------------------- *)
(** * Sales are kept *)

Lemma sale_delete_denied (d : db) (s : session) (r : Ventes.row) :
  authorize ventes d s (Delete r) = false.
Proof. destruct s; reflexivity. Qed.

(** A committed event keeps every sale, up to the update of that sale and the
    deletion of its garage. *)
Lemma sale_kept_by_event (d d' : db) (ev : event) :
  exec_event d ev = Ok d' ->
  forall v, In v (ventes_rows d) ->
            In v (ventes_rows d')
            \/ updates_sale ev (Ventes.id v)
            \/ deletes_garage ev (Ventes.garage_id v).
Proof.
  intros H v Hin.
  destruct ev as [s now [R t r|R t k set|R t k]|now pid rid new];
    [destruct t .. |]; committed H;
    cbn [ventes_rows set_rows on_delete rows handle_new_user];
    try (left; exact Hin).
  - left. apply in_or_app. left. exact Hin.
  - destruct (N.eq_dec (Ventes.id v) k) as [E|E].
    + right; left. cbn [updates_sale is_ventes]. auto.
    + left. apply (In_replace_row ventes); assumption.
  - destruct (N.eq_dec (Ventes.garage_id v) k) as [E|E].
    + right; right. cbn [deletes_garage is_garages]. auto.
    + left. apply filter_In. split; [exact Hin|].
      apply negb_true_iff, N.eqb_neq, E.
  - rewrite sale_delete_denied in Hpass. discriminate Hpass.
Qed.

Lemma sales_count_by_event (d d' : db) (ev : event) :
  exec_event d ev = Ok d' ->
  (forall g, ~ deletes_garage ev g) ->
  (List.length (ventes_rows d) <= List.length (ventes_rows d'))%nat.
Proof.
  intros H Hg.
  destruct ev as [s now [R t r|R t k set|R t k]|now pid rid new];
    [destruct t .. |]; committed H;
    cbn [ventes_rows set_rows on_delete rows handle_new_user];
    try apply Nat.le_refl.
  - rewrite length_app. apply Nat.le_add_r.
  - rewrite (length_replace_row ventes). apply Nat.le_refl.
  - elim (Hg k). cbn [deletes_garage is_garages]. auto.
  - rewrite sale_delete_denied in Hpass. discriminate Hpass.
Qed.

(** C6. No caller, administrators included, is permitted to delete a sale, and
    a delete statement on [ventes] is never committed.  A committed event
    keeps every sale row, except that the update of a sale replaces it and the
    deletion of its garage removes it by cascade; so the number of sales never
    decreases along events that delete no garage. *)
Theorem sale_never_deleted :
  (forall d s r, authorize ventes d s (Delete r) = false)
  /\ (forall d s now k, exec d s now (DeleteRow ventes k) = Err NotFound)
  /\ (forall d ev d',
         exec_event d ev = Ok d' ->
         forall v, In v (ventes_rows d) ->
                   In v (ventes_rows d')
                   \/ updates_sale ev (Ventes.id v)
                   \/ deletes_garage ev (Ventes.garage_id v))
  /\ (forall evs d,
         (forall ev g, In ev evs -> ~ deletes_garage ev g) ->
         (List.length (ventes_rows d)
          <= List.length (ventes_rows (run d evs)))%nat).
Proof.
  split; [exact sale_delete_denied|split; [|split]].
  - intros d s now k. cbn [exec]. unfold exec_delete.
    destruct (lookup_row ventes k d) as [old|]; [|reflexivity].
    change (passes_using (policies ventes) DELETE d s old)
      with (authorize ventes d s (Delete old)).
    now rewrite sale_delete_denied.
  - intros d ev d'. apply sale_kept_by_event.
  - induction evs as [|ev evs IH]; intros d Hg; [apply Nat.le_refl|].
    cbn [run fold_left]. fold (run (apply_event d ev) evs).
    apply Nat.le_trans with (List.length (ventes_rows (apply_event d ev))).
    + unfold apply_event. destruct (exec_event d ev) as [d'|e] eqn:E.
      * eapply sales_count_by_event; [exact E|].
        intro g. apply Hg. now left.
      * apply Nat.le_refl.
    + apply IH. intros ev' g Hin. apply Hg. now right.
Qed.

Lemma sale_never_deleted_witness :
  (exists d',
      exec_event sample (Request (Authenticated 1) 9 (DeleteRow garages 20))
      = Ok d'
      /\ In sample_sale (ventes_rows d'))
  /\ (1 <= List.length
             (ventes_rows
                (run sample
                   [Request (Authenticated 1) 9 (DeleteRow ventes 700);
                    Request (Authenticated 2) 9
                      (InsertInto ventes sale_garage_20)])))%nat.
Proof.
  destruct sale_never_deleted as (_ & _ & Hstep & Hrun).
  split.
  - eexists. split; [vm_compute; reflexivity|].
    destruct (Hstep sample
                (Request (Authenticated 1) 9 (DeleteRow garages 20)) _
                eq_refl sample_sale (or_introl eq_refl)) as [H|[H|H]].
    + exact H.
    + destruct H.
    + destruct H as [_ H]. discriminate H.
  - apply (Hrun _ sample).
    intros ev g [<-|[<-|[]]]; cbn; intuition discriminate.
Defined.

(* ------------------------------------------------------------------------- *)
(** * The update timestamp *)

Lemma rows_set_rows {R} (t : table R) (l : list R) (d : db) :
  rows t (set_rows t l d) = l.
Proof. destruct t; reflexivity. Qed.

Lemma lookup_row_Some {R} (t : table R) (k : uuid) (d : db) (r : R) :
  lookup_row t k d = Some r -> In r (rows t d) /\ pk t r = k.
Proof.
  unfold lookup_row. intro H. apply find_some in H as [Hin Hk].
  split; [exact Hin | now apply N.eqb_eq].
Qed.

Lemma In_replaced {R} (t : table R) (k : uuid) (new old : R) (l : list R) :
  In old l -> pk t old = k -> In new (replace_row t k new l).
Proof.
  intros Hin Hk. unfold replace_row. apply in_map_iff. exists old.
  split; [|exact Hin]. rewrite Hk, N.eqb_refl. reflexivity.
Qed.

(** C7, as stated, fails.  The update of a sale is committed and a sale has no
    update timestamp to refresh.  On a garage, the update at time 60 of a row
    inserted with [updated_at] 100 sets the timestamp to 60: it is refreshed,
    not advanced. *)
Lemma update_timestamp_not_always_advanced :
  (exec sample (Authenticated 1) 9 (UpdateRow ventes 700 (fun r => r))
   = Ok sample
   /\ lookup_row ventes 700 sample = Some sample_sale
   /\ updated_at_of ventes sample_sale = None)
  /\ (exec_event sample
        (Request (Authenticated 1) 50 (InsertInto garages garage_30))
      = Ok (run sample
              [Request (Authenticated 1) 50 (InsertInto garages garage_30)])
      /\ exec_event
           (run sample
              [Request (Authenticated 1) 50 (InsertInto garages garage_30)])
           (Request (Authenticated 1) 60 (UpdateRow garages 30 (fun r => r)))
         = Ok (run sample
                 [Request (Authenticated 1) 50 (InsertInto garages garage_30);
                  Request (Authenticated 1) 60
                    (UpdateRow garages 30 (fun r => r))])
      /\ option_map Garages.updated_at
           (lookup_row garages 30
              (run sample
                 [Request (Authenticated 1) 50 (InsertInto garages garage_30)]))
         = Some 100
      /\ option_map Garages.updated_at
           (lookup_row garages 30
              (run sample
                 [Request (Authenticated 1) 50 (InsertInto garages garage_30);
                  Request (Authenticated 1) 60
                    (UpdateRow garages 30 (fun r => r))]))
         = Some 60).
Proof. vm_compute. repeat split. Qed.

(** C7, amended.  A committed update of a garage, a profile, a car or a
    client stores the row the statement sets with its [updated_at] replaced by
    the current time of the statement, whichever columns the statement sets,
    [updated_at] included; the timestamp advances strictly when its previous
    value is earlier than that time.  A sale and a role assignment have no
    update timestamp. *)
Theorem update_refreshes_updated_at :
  (forall R (t : table R) d d' s now k set,
      exec d s now (UpdateRow t k set) = Ok d' ->
      exists old new,
        lookup_row t k d = Some old
        /\ new = before_update t now (set old)
        /\ In new (rows t d')
        /\ forall ts, updated_at_of t old = Some ts ->
                      updated_at_of t new = Some now
                      /\ (ts < now ->
                          exists ts', updated_at_of t new = Some ts'
                                      /\ ts < ts'))
  /\ (forall r, updated_at_of garages r = Some (Garages.updated_at r))
  /\ (forall r, updated_at_of profiles r = Some (Profiles.updated_at r))
  /\ (forall r, updated_at_of voitures r = Some (Voitures.updated_at r))
  /\ (forall r, updated_at_of clients r = Some (Clients.updated_at r))
  /\ (forall r, updated_at_of ventes r = None)
  /\ (forall r, updated_at_of user_roles r = None).
Proof.
  split; [|repeat split].
  intros R t d d' s now k set H.
  change (exec d s now (UpdateRow t k set))
    with (exec_event d (Request s now (UpdateRow t k set))) in H.
  committed H.
  destruct (lookup_row_Some _ _ _ Hfound) as [Hin Hk].
  exists old, (before_update t now (set old)).
  split; [exact Hfound|split; [reflexivity|split]].
  - rewrite rows_set_rows. now apply In_replaced with old.
  - intros ts Hts.
    assert (E : updated_at_of t (before_update t now (set old)) = Some now)
      by (destruct t; try discriminate Hts; reflexivity).
    split; [exact E|]. intro Hlt. exists now. split; [exact E | exact Hlt].
Qed.

Lemma update_refreshes_updated_at_witness :
  exists d',
    exec sample (Authenticated 4) 77
      (UpdateRow voitures 500 (fun r => r)) = Ok d'
    /\ exists new, In new (voitures_rows d')
                   /\ updated_at_of voitures new = Some 77.
Proof.
  destruct update_refreshes_updated_at as (H & _).
  eexists. split; [vm_compute; reflexivity|].
  destruct (H _ voitures sample _ (Authenticated 4) 77 500%N (fun r => r)
              eq_refl) as (old & new & Hold & Hnew & Hin & Hts).
  exists new. split; [exact Hin|].
  apply (Hts 5). vm_compute in Hold. injection Hold as <-. reflexivity.
Defined.

(* ------------------------------------------------------------------------- *)
(** * Garage references and referential actions *)

Lemma check_constraints_violated (d : db) (name : string) :
  In name (violated d) ->
  check_constraints d = Err (ConstraintViolation (violated d)).
Proof.
  unfold check_constraints. destruct (violated d); [intros []|reflexivity].
Qed.

Lemma not_refers_removed {R} (t : table R) (k : uuid) (l : list R) :
  refers (map (pk t) (remove_row t k l)) k = false.
Proof.
  apply not_true_is_false. intro H. apply refers_In in H.
  apply in_map_iff in H as (r & Hk & Hin).
  unfold remove_row in Hin. apply filter_In in Hin as [_ Hne].
  apply negb_true_iff, N.eqb_neq in Hne. contradiction.
Qed.

Lemma forallb_false_In {A} (f : A -> bool) (l : list A) (x : A) :
  In x l -> f x = false -> forallb f l = false.
Proof.
  intros Hin Hf. apply not_true_is_false. intro H.
  rewrite forallb_forall in H. rewrite (H x Hin) in Hf. discriminate.
Qed.

Lemma delete_restricted {R} (t : table R) (d : db) (s : session)
    (now : timestamptz) (k : uuid) (fkey : string) (chk : db -> bool) :
  In (fkey, chk) constraints ->
  chk (on_delete t now k (set_rows t (remove_row t k (rows t d)) d)) = false ->
  restricted (exec d s now (DeleteRow t k)) fkey.
Proof.
  intros Hc Hchk. cbn [exec]. unfold exec_delete, restricted.
  destruct (lookup_row t k d) as [old|]; [|now left].
  destruct (passes_using (policies t) DELETE d s old); [|now left].
  right. eexists. split.
  - apply check_constraints_violated with fkey.
    now apply violated_In with chk.
  - now apply violated_In with chk.
Qed.

Lemma profiles_set_null_id (now : timestamptz) (k : uuid) (p : Profiles.row) :
  Profiles.id (profiles_set_null now k p) = Profiles.id p.
Proof.
  unfold profiles_set_null.
  destruct (is_true (sql_eq (Profiles.garage_id p) (Some k))); reflexivity.
Qed.

Lemma profiles_set_null_user (now : timestamptz) (k : uuid)
    (p : Profiles.row) :
  Profiles.user_id (profiles_set_null now k p) = Profiles.user_id p.
Proof.
  unfold profiles_set_null.
  destruct (is_true (sql_eq (Profiles.garage_id p) (Some k))); reflexivity.
Qed.

Lemma profiles_set_null_garage (now : timestamptz) (k : uuid)
    (p : Profiles.row) :
  Profiles.garage_id (profiles_set_null now k p) <> Some k
  /\ (Profiles.garage_id p <> Some k -> profiles_set_null now k p = p)
  /\ (Profiles.garage_id p = Some k ->
      Profiles.garage_id (profiles_set_null now k p) = None).
Proof.
  unfold profiles_set_null.
  destruct (Profiles.garage_id p) as [g|] eqn:E; cbn [sql_eq is_true].
  - destruct (N.eqb_spec g k) as [->|Hne]; cbn.
    + repeat split; [discriminate | intro H; now elim H].
    + rewrite E. repeat split; try congruence.
  - rewrite E. repeat split; discriminate.
Qed.

Lemma In_cascade {A} (garage_id : A -> uuid) (k : uuid) (l : list A) (r : A) :
  In r (filter (fun x => negb (N.eqb (garage_id x) k)) l)
  <-> In r l /\ garage_id r <> k.
Proof. now rewrite filter_In, negb_true_iff, N.eqb_neq. Qed.

(* ------------------------------------------------------------------------- *)
(** * Keys and references under insertion and replacement *)

Lemma distinct_by_snoc {A} (eqb : A -> A -> bool) (l : list A) (x : A) :
  (forall a b, eqb a b = eqb b a) ->
  distinct_by eqb (l ++ [x])
  = distinct_by eqb l && negb (existsb (eqb x) l).
Proof.
  intro Hsym. induction l as [|a l IH]; [reflexivity|].
  cbn [app distinct_by existsb]. rewrite IH, existsb_app.
  cbn [existsb]. rewrite orb_false_r, (Hsym x a).
  destruct (existsb (eqb a) l), (eqb a x), (distinct_by eqb l),
    (existsb (eqb x) l); reflexivity.
Qed.

Lemma distinct_snoc (l : list uuid) (x : uuid) :
  distinct l = true -> ~ In x l -> distinct (l ++ [x]) = true.
Proof.
  intros Hl Hx. unfold distinct in *.
  rewrite distinct_by_snoc by apply N.eqb_sym. rewrite Hl. cbn [andb].
  apply negb_true_iff, not_true_is_false. intro H. now apply refers_In in H.
Qed.

Lemma distinct_snoc_inv (l : list uuid) (x : uuid) :
  distinct (l ++ [x]) = true -> ~ In x l.
Proof.
  unfold distinct. rewrite distinct_by_snoc by apply N.eqb_sym.
  intros H Hin. apply andb_true_iff in H as [_ H].
  apply refers_In in Hin. unfold refers in Hin. rewrite Hin in H.
  discriminate.
Qed.

Lemma user_role_key_eqb_sym (a b : uuid * app_role) :
  user_role_key_eqb a b = user_role_key_eqb b a.
Proof.
  unfold user_role_key_eqb. rewrite N.eqb_sym. f_equal.
  destruct (snd a), (snd b); reflexivity.
Qed.

Lemma refers_app (keys more : list uuid) (k : uuid) :
  refers (keys ++ more) k = refers keys k || refers more k.
Proof. apply existsb_app. Qed.

Lemma forallb_refers_app {A} (f : A -> uuid) (keys more : list uuid)
    (l : list A) :
  forallb (fun r => refers keys (f r)) l = true ->
  forallb (fun r => refers (keys ++ more) (f r)) l = true.
Proof.
  rewrite !forallb_forall. intros H r Hin.
  rewrite refers_app, (H r Hin). reflexivity.
Qed.

(** No row refers to a key that is not there. *)
Lemma no_row_of_fresh_key {A} (f : A -> uuid) (keys : list uuid) (l : list A)
    (k : uuid) :
  forallb (fun r => refers keys (f r)) l = true ->
  ~ In k keys -> ~ In k (map f l).
Proof.
  rewrite forallb_forall. intros H Hk Hin.
  apply in_map_iff in Hin as (r & <- & Hr).
  apply Hk, refers_In, H, Hr.
Qed.

Lemma filter_none {A} (f : A -> bool) (l : list A) :
  (forall x, In x l -> f x = false) -> filter f l = [].
Proof.
  induction l as [|a l IH]; intro H; [reflexivity|].
  cbn [filter]. rewrite (H a (or_introl eq_refl)).
  apply IH. intros x Hx. apply H. now right.
Qed.

Lemma map_replace_row {R B} (t : table R) (f : R -> B) (k : uuid) (new : R)
    (l : list R) :
  (forall r, In r l -> pk t r = k -> f new = f r) ->
  map f (replace_row t k new l) = map f l.
Proof.
  intro H. unfold replace_row. rewrite map_map. apply map_ext_in.
  intros r Hin. destruct (N.eqb_spec (pk t r) k); [now apply H | reflexivity].
Qed.

Lemma forallb_replace_row {R} (t : table R) (P : R -> bool) (k : uuid)
    (new : R) (l : list R) :
  forallb P l = true -> P new = true ->
  forallb P (replace_row t k new l) = true.
Proof.
  rewrite !forallb_forall. intros Hl Hnew r Hin.
  unfold replace_row in Hin. apply in_map_iff in Hin as (r0 & <- & Hr0).
  destruct (N.eqb (pk t r0) k); [exact Hnew | now apply Hl].
Qed.

(** Two rows of a table with the same value in a column of distinct values
    are the same row. *)
Lemma distinct_key {A} (f : A -> uuid) (l : list A) (a b : A) :
  distinct (map f l) = true -> In a l -> In b l -> f a = f b -> a = b.
Proof.
  rewrite distinct_NoDup. induction l as [|x l IH]; [intros _ []|].
  cbn [map]. intros Hnd Ha Hb E. inversion Hnd as [|? ? Hx Hl]; subst.
  destruct Ha as [->|Ha], Hb as [->|Hb]; auto.
  - elim Hx. rewrite E. now apply in_map.
  - elim Hx. rewrite <- E. now apply in_map.
Qed.

(* ------------------------------------------------------------------------- *)
(** * Creation of an identity *)

(** The profile and the role assignment [handle_new_user] inserts. *)
Lemma handle_new_user_rows (now : timestamptz) (pid rid : uuid)
    (new : AuthUsers.row) (d : db) :
  profiles_rows (handle_new_user now pid rid new d)
  = (profiles_rows d ++
     [Profiles.mk pid (AuthUsers.id new)
        (COALESCE (json_text (AuthUsers.raw_user_meta_data new) "nom")
                  "Nouveau")
        (COALESCE (json_text (AuthUsers.raw_user_meta_data new) "prenom")
                  "Utilisateur")
        (AuthUsers.email new) None None now now])%list
  /\ user_roles_rows (handle_new_user now pid rid new d)
     = (user_roles_rows d
        ++ [UserRoles.mk rid (AuthUsers.id new) employe now])%list.
Proof. split; reflexivity. Qed.

(** Goes through the constraints of a modified database, leaving those the
    modification touches. *)
Ltac preserved Hv :=
  apply valid_intro;
  let c := fresh "c" in
  let Hc := fresh "Hc" in
  let Hold := fresh "Hold" in
  intros c Hc;
  pose proof (@valid_holds _ Hv c Hc) as Hold;
  cbn [constraints In] in Hc;
  repeat (destruct Hc as [<-|Hc];
          [cbn [snd auth_users_rows garages_rows profiles_rows user_roles_rows
                voitures_rows clients_rows ventes_rows handle_new_user
                set_rows rows on_delete] in Hold |- *;
           try exact Hold
          |]);
  [.. | destruct Hc].

(* ------------------------------------------------------------------------- *)
(** * The deletion of a garage *)

Lemma distinct_filter {A} (f : A -> uuid) (P : A -> bool) (l : list A) :
  distinct (map f l) = true -> distinct (map f (filter P l)) = true.
Proof.
  rewrite !distinct_NoDup. induction l as [|a l IH]; [trivial|].
  cbn [map filter]. intro H. inversion H as [|? ? Ha Hl]; subst.
  destruct (P a); [|now apply IH].
  cbn [map]. constructor; [|now apply IH].
  intro Hin. apply Ha. apply in_map_iff in Hin as (x & E & Hx).
  apply in_map_iff. exists x. split; [exact E|].
  now apply filter_In in Hx.
Qed.

Lemma forallb_filter {A} (P Q : A -> bool) (l : list A) :
  forallb P l = true -> forallb P (filter Q l) = true.
Proof.
  rewrite !forallb_forall. intros H x Hin. apply H.
  now apply filter_In in Hin.
Qed.

Lemma refers_kept {R} (t : table R) (k g : uuid) (l : list R) :
  refers (map (pk t) l) g = true -> g <> k ->
  refers (map (pk t) (remove_row t k l)) g = true.
Proof.
  rewrite !refers_In. intros Hin Hne.
  apply in_map_iff in Hin as (r & E & Hr). apply in_map_iff.
  exists r. split; [exact E|]. unfold remove_row. apply filter_In.
  split; [exact Hr|]. rewrite E. now apply negb_true_iff, N.eqb_neq.
Qed.

(** The rows that the cascade leaves reference a garage that is still
    there. *)
Lemma garage_fkey_after_cascade {A} (garage_id : A -> uuid) (k : uuid)
    (gs : list Garages.row) (l : list A) :
  forallb (fun r => refers (map Garages.id gs) (garage_id r)) l = true ->
  forallb (fun r => refers (map Garages.id (remove_row garages k gs))
                           (garage_id r))
          (filter (fun r => negb (N.eqb (garage_id r) k)) l) = true.
Proof.
  rewrite !forallb_forall. intros H r Hin.
  apply In_cascade in Hin as [Hin Hne].
  apply (@refers_kept _ garages); [now apply H | exact Hne].
Qed.

(** A sale that the cascade leaves still finds the row it references, when
    that row is not one of the garage. *)
Lemma sale_fkey_after_cascade {A} (id garage_id : A -> uuid)
    (ref : Ventes.row -> uuid) (k : uuid) (l : list A)
    (sales : list Ventes.row) :
  forallb (fun v => refers (map id l) (ref v)) sales = true ->
  (forall v, In v sales -> Ventes.garage_id v <> k ->
             forall c, In c l -> id c = ref v -> garage_id c <> k) ->
  forallb (fun v => refers
                      (map id (filter (fun c => negb (N.eqb (garage_id c) k))
                                      l))
                      (ref v))
          (filter (fun v => negb (N.eqb (Ventes.garage_id v) k)) sales) = true.
Proof.
  rewrite !forallb_forall. intros H Hf v Hin.
  apply In_cascade in Hin as [Hin Hne].
  apply refers_In. pose proof (H v Hin) as Hr. apply refers_In in Hr.
  apply in_map_iff in Hr as (c & E & Hc). apply in_map_iff.
  exists c. split; [exact E|]. apply In_cascade. split; [exact Hc|].
  now apply (Hf v Hin Hne c Hc).
Qed.

Lemma garage_delete_valid (d : db) (now : timestamptz) (k : uuid) :
  valid d -> no_foreign_sale d k ->
  valid (on_delete garages now k
           (set_rows garages (remove_row garages k (rows garages d)) d)).
Proof.
  intros Hv Hf.
  assert (Hid : map Profiles.id
                  (map (profiles_set_null now k) (profiles_rows d))
                = map Profiles.id (profiles_rows d)).
  { rewrite map_map. apply map_ext. intro p. apply profiles_set_null_id. }
  assert (Hu : map Profiles.user_id
                 (map (profiles_set_null now k) (profiles_rows d))
               = map Profiles.user_id (profiles_rows d)).
  { rewrite map_map. apply map_ext. intro p. apply profiles_set_null_user. }
  preserved Hv.
  - unfold remove_row. now apply distinct_filter.
  - now rewrite Hid.
  - now rewrite Hu.
  - rewrite forallb_forall in *. intros p Hin.
    apply in_map_iff in Hin as (p0 & <- & Hin).
    rewrite profiles_set_null_user. now apply Hold.
  - rewrite forallb_forall in *. intros p Hin.
    apply in_map_iff in Hin as (p0 & <- & Hin).
    destruct (profiles_set_null_garage now k p0) as (Hne & Hsame & Hnull).
    destruct (Profiles.garage_id (profiles_set_null now k p0)) as [g|] eqn:E;
      [|reflexivity].
    assert (Hp0 : Profiles.garage_id p0 <> Some k).
    { intro E0. specialize (Hnull E0). discriminate. }
    rewrite (Hsame Hp0) in E. specialize (Hold p0 Hin). rewrite E in Hold.
    apply (@refers_kept _ garages); [exact Hold | congruence].
  - now apply distinct_filter.
  - now apply garage_fkey_after_cascade.
  - now apply forallb_filter.
  - now apply forallb_filter.
  - now apply forallb_filter.
  - now apply distinct_filter.
  - now apply garage_fkey_after_cascade.
  - now apply distinct_filter.
  - apply sale_fkey_after_cascade; [exact Hold|].
    intros v Hin Hne. apply (Hf v Hin Hne).
  - apply sale_fkey_after_cascade; [exact Hold|].
    intros v Hin Hne. apply (Hf v Hin Hne).
  - rewrite Hid. now apply forallb_filter.
  - now apply garage_fkey_after_cascade.
  - now apply forallb_filter.
Qed.

(** The deletion of a garage by a caller that may delete it is committed when
    no sale of another garage references one of its cars or clients. *)
Lemma garage_delete_commits (d : db) (s : session) (now : timestamptz)
    (k : uuid) (g : Garages.row) :
  valid d ->
  lookup_row garages k d = Some g ->
  authorize garages d s (Delete g) = true ->
  no_foreign_sale d k ->
  exec d s now (DeleteRow garages k)
  = Ok (on_delete garages now k
          (set_rows garages (remove_row garages k (rows garages d)) d)).
Proof.
  intros Hv Hl Ha Hf. cbn [exec]. unfold exec_delete. rewrite Hl.
  cbn [authorize] in Ha. rewrite Ha.
  apply check_constraints_Ok. split; [|reflexivity].
  now apply garage_delete_valid.
Qed.

(** A committed deletion of a garage had no sale of another garage on one of
    its cars or clients. *)
Lemma garage_delete_committed (d d' : db) (s : session) (now : timestamptz)
    (k : uuid) :
  valid d ->
  exec d s now (DeleteRow garages k) = Ok d' ->
  no_foreign_sale d k.
Proof.
  intros Hv H.
  change (exec d s now (DeleteRow garages k))
    with (exec_event d (Request s now (DeleteRow garages k))) in H.
  apply committed_delete in H as (old & _ & _ & Hv' & ->).
  constraint Hv "voitures_pkey" Hcars.
  constraint Hv "clients_pkey" Hclients.
  constraint Hv' "ventes_voiture_id_fkey" Hvv.
  constraint Hv' "ventes_client_id_fkey" Hvc.
  cbn [on_delete set_rows rows voitures_rows clients_rows ventes_rows]
    in Hvv, Hvc.
  rewrite forallb_forall in Hvv, Hvc.
  intros v Hin Hne.
  assert (Hin' : In v (filter (fun v => negb (N.eqb (Ventes.garage_id v) k))
                              (ventes_rows d)))
    by now apply In_cascade.
  split; intros c Hc Hid.
  - specialize (Hvv v Hin'). apply refers_In in Hvv.
    apply in_map_iff in Hvv as (c' & E & Hc').
    apply In_cascade in Hc' as [Hc' Hk'].
    assert (c' = c)
      by (apply (distinct_key Voitures.id (voitures_rows d)); auto;
          congruence).
    now subst c'.
  - specialize (Hvc v Hin'). apply refers_In in Hvc.
    apply in_map_iff in Hvc as (c' & E & Hc').
    apply In_cascade in Hc' as [Hc' Hk'].
    assert (c' = c)
      by (apply (distinct_key Clients.id (clients_rows d)); auto;
          congruence).
    now subst c'.
Qed.

(** C10.  In every reachable state each car, client and sale references an
    existing garage (the column is NOT NULL, so the reference is never null).
    The deletion of a garage by a caller that may delete it is committed
    exactly when no sale recorded under another garage references one of its
    cars or clients: such a sale restricts the deletion of the row it
    references, also when the deletion comes from the cascade.  A committed
    deletion removes the garage and exactly the cars, clients and sales that
    reference it; it deletes no profile and leaves no profile referencing the
    garage, those that did having a null garage.  The deletion of a car, a
    client or a profile referenced by a sale is rejected. *)
Theorem garage_references_and_actions :
  (forall d, reachable d ->
     (forall v, In v (voitures_rows d) ->
                In (Voitures.garage_id v) (map Garages.id (garages_rows d)))
     /\ (forall c, In c (clients_rows d) ->
                   In (Clients.garage_id c) (map Garages.id (garages_rows d)))
     /\ (forall v, In v (ventes_rows d) ->
                   In (Ventes.garage_id v) (map Garages.id (garages_rows d))))
  /\ (forall d s now k g,
         valid d ->
         lookup_row garages k d = Some g ->
         authorize garages d s (Delete g) = true ->
         ((exists d', exec d s now (DeleteRow garages k) = Ok d')
          <-> no_foreign_sale d k))
  /\ (forall d d' s now k,
         exec d s now (DeleteRow garages k) = Ok d' ->
         (forall g, In g (garages_rows d')
                    <-> In g (garages_rows d) /\ Garages.id g <> k)
         /\ (forall v, In v (voitures_rows d')
                       <-> In v (voitures_rows d) /\ Voitures.garage_id v <> k)
         /\ (forall c, In c (clients_rows d')
                       <-> In c (clients_rows d) /\ Clients.garage_id c <> k)
         /\ (forall v, In v (ventes_rows d')
                       <-> In v (ventes_rows d) /\ Ventes.garage_id v <> k)
         /\ map Profiles.id (profiles_rows d')
            = map Profiles.id (profiles_rows d)
         /\ (forall p, In p (profiles_rows d') ->
                       Profiles.garage_id p <> Some k)
         /\ (forall p, In p (profiles_rows d) ->
                       Profiles.garage_id p = Some k ->
                       exists p', In p' (profiles_rows d')
                                  /\ Profiles.id p' = Profiles.id p
                                  /\ Profiles.garage_id p' = None)
         /\ (forall p, In p (profiles_rows d) ->
                       Profiles.garage_id p <> Some k ->
                       In p (profiles_rows d')))
  /\ (forall d s now v,
         In v (ventes_rows d) ->
         restricted (exec d s now (DeleteRow voitures (Ventes.voiture_id v)))
                    "ventes_voiture_id_fkey"
         /\ restricted (exec d s now (DeleteRow clients (Ventes.client_id v)))
                       "ventes_client_id_fkey"
         /\ restricted (exec d s now (DeleteRow profiles (Ventes.employe_id v)))
                       "ventes_employe_id_fkey").
Proof.
  split; [|split; [|split]].
  - intros d Hr. apply reachable_valid in Hr.
    split; [|split]; intros r Hin; apply refers_In.
    + constraint Hr "voitures_garage_id_fkey" H.
      rewrite forallb_forall in H. now apply H.
    + constraint Hr "clients_garage_id_fkey" H.
      rewrite forallb_forall in H. now apply H.
    + constraint Hr "ventes_garage_id_fkey" H.
      rewrite forallb_forall in H. now apply H.
  - intros d s now k g Hv Hl Ha. split.
    + intros (d' & H). now apply garage_delete_committed in H.
    + intro Hf. eexists. now apply garage_delete_commits with g.
  - intros d d' s now k H.
    change (exec d s now (DeleteRow garages k))
      with (exec_event d (Request s now (DeleteRow garages k))) in H.
    committed H.
    cbn [on_delete set_rows rows garages_rows voitures_rows clients_rows
         ventes_rows profiles_rows].
    split; [|split; [|split; [|split; [|split; [|split; [|split]]]]]];
      try (intro r; apply In_cascade).
    + rewrite map_map. apply map_ext. intro p. apply profiles_set_null_id.
    + intros p Hin. apply in_map_iff in Hin as (p0 & <- & _).
      apply profiles_set_null_garage.
    + intros p Hin Hg. exists (profiles_set_null now k p).
      split; [now apply in_map|split].
      * apply profiles_set_null_id.
      * now apply profiles_set_null_garage.
    + intros p Hin Hg. apply in_map_iff. exists p.
      split; [now apply profiles_set_null_garage | exact Hin].
  - intros d s now v Hin. split; [|split].
    + apply delete_restricted with
        (chk := fun d => forallb
                  (fun v => refers (map Voitures.id (voitures_rows d))
                                   (Ventes.voiture_id v))
                  (ventes_rows d)); [find_constraint|].
      cbn [on_delete set_rows rows voitures_rows ventes_rows].
      apply forallb_false_In with v; [exact Hin|].
      apply (not_refers_removed voitures).
    + apply delete_restricted with
        (chk := fun d => forallb
                  (fun v => refers (map Clients.id (clients_rows d))
                                   (Ventes.client_id v))
                  (ventes_rows d)); [find_constraint|].
      cbn [on_delete set_rows rows clients_rows ventes_rows].
      apply forallb_false_In with v; [exact Hin|].
      apply (not_refers_removed clients).
    + apply delete_restricted with
        (chk := fun d => forallb
                  (fun v => refers (map Profiles.id (profiles_rows d))
                                   (Ventes.employe_id v))
                  (ventes_rows d)); [find_constraint|].
      cbn [on_delete set_rows rows profiles_rows ventes_rows].
      apply forallb_false_In with v; [exact Hin|].
      apply (not_refers_removed profiles).
Qed.

Lemma garage_references_and_actions_witness :
  In (Voitures.garage_id sample_car) (map Garages.id (garages_rows sample))
  /\ (exists d',
         exec sample (Authenticated 1) 9 (DeleteRow garages 10) = Ok d'
         /\ ~ In sample_car (voitures_rows d')
         /\ ~ In sample_client (clients_rows d')
         /\ ~ In sample_sale (ventes_rows d')
         /\ map Profiles.id (profiles_rows d') = [100; 200; 300; 400]%N
         /\ forall p, In p (profiles_rows d') ->
                      Profiles.garage_id p <> Some 10%N)
  /\ (forall d',
         exec crossed (Authenticated 1) 10 (DeleteRow garages 10) <> Ok d')
  /\ restricted (exec sample (Authenticated 1) 9 (DeleteRow voitures 500))
                "ventes_voiture_id_fkey".
Proof.
  destruct garage_references_and_actions as (Href & Hcommit & Hdel & Hres).
  split; [|split; [|split]].
  - apply (Href sample).
    + exists sample, []. split; [exact valid_sample | reflexivity].
    + left. reflexivity.
  - assert (Hf : no_foreign_sale sample 10).
    { intros v [<-|[]] Hne. exfalso. now apply Hne. }
    destruct (proj2 (Hcommit sample (Authenticated 1) 9 10%N
                       (Garages.mk 10 "Garage A" None None None 5 5)
                       valid_sample eq_refl eq_refl) Hf) as (d' & Hd').
    exists d'. split; [exact Hd'|].
    destruct (Hdel sample d' (Authenticated 1) 9 10%N Hd')
      as (_ & Hcars & Hclients & Hsales & Hp & Hnull & _).
    split; [|split; [|split; [|split; [exact Hp | exact Hnull]]]].
    + intro Hin. apply Hcars in Hin as [_ Hne]. now apply Hne.
    + intro Hin. apply Hclients in Hin as [_ Hne]. now apply Hne.
    + intro Hin. apply Hsales in Hin as [_ Hne]. now apply Hne.
  - intros d' H.
    assert (Hv : valid crossed) by (vm_compute; reflexivity).
    pose proof (proj1 (Hcommit crossed (Authenticated 1) 10 10%N
                         (Garages.mk 10 "Garage A" None None None 5 5)
                         Hv eq_refl eq_refl)
                      (ex_intro _ d' H)) as Hf.
    destruct (Hf sale_garage_20) as [Hcar _].
    + vm_compute. tauto.
    + discriminate.
    + apply (Hcar sample_car); [vm_compute; tauto | reflexivity | reflexivity].
  - apply (Hres sample (Authenticated 1) 9 sample_sale).
    left. reflexivity.
Defined.

Lemma insert_auth_user_valid (d : db) (now : timestamptz) (pid rid : uuid)
    (new : AuthUsers.row) :
  valid d ->
  ~ In (AuthUsers.id new) (map AuthUsers.id (auth_users_rows d)) ->
  ~ In pid (map Profiles.id (profiles_rows d)) ->
  ~ In rid (map UserRoles.id (user_roles_rows d)) ->
  valid (handle_new_user now pid rid new
           (mkdb (auth_users_rows d ++ [new]) (garages_rows d)
                 (profiles_rows d) (user_roles_rows d) (voitures_rows d)
                 (clients_rows d) (ventes_rows d))).
Proof.
  intros Hv Hu Hp Hr.
  constraint Hv "profiles_user_id_fkey" Hpu.
  constraint Hv "user_roles_user_id_fkey" Hru.
  preserved Hv.
  - (* users_pkey *)
    rewrite map_app. now apply distinct_snoc.
  - (* profiles_pkey *)
    rewrite map_app. now apply distinct_snoc.
  - (* profiles_user_id_key *)
    rewrite map_app. apply distinct_snoc; [exact Hold|].
    eapply no_row_of_fresh_key; [exact Hpu | exact Hu].
  - (* profiles_user_id_fkey *)
    rewrite forallb_app, map_app. apply andb_true_iff. split.
    + now apply forallb_refers_app.
    + cbn. rewrite refers_app. cbn. rewrite N.eqb_refl.
      now rewrite !orb_true_r.
  - (* profiles_garage_id_fkey *)
    rewrite forallb_app, Hold. reflexivity.
  - (* user_roles_pkey *)
    rewrite map_app. now apply distinct_snoc.
  - (* user_roles_user_id_role_key *)
    rewrite map_app. cbn [map].
    rewrite distinct_by_snoc by apply user_role_key_eqb_sym.
    rewrite Hold. cbn [andb]. apply negb_true_iff, not_true_is_false.
    intro H. apply existsb_exists in H as (key & Hin & E).
    apply in_map_iff in Hin as (r & <- & Hin).
    unfold user_role_key_eqb in E. cbn [fst snd] in E.
    apply andb_true_iff in E as [E _]. apply N.eqb_eq in E.
    eapply no_row_of_fresh_key; [exact Hru | exact Hu |].
    cbn [UserRoles.user_id] in E. rewrite E. now apply in_map.
  - (* user_roles_user_id_fkey *)
    rewrite forallb_app, map_app. apply andb_true_iff. split.
    + now apply forallb_refers_app.
    + cbn. rewrite refers_app. cbn. rewrite N.eqb_refl.
      now rewrite !orb_true_r.
  - (* ventes_employe_id_fkey *)
    rewrite map_app. now apply forallb_refers_app.
Qed.

Lemma at_most_one_by_key {A} (f : A -> uuid) (l : list A) (u : uuid) :
  distinct (map f l) = true ->
  (List.length (filter (fun x => N.eqb (f x) u) l) <= 1)%nat.
Proof.
  rewrite distinct_NoDup. induction l as [|a l IH]; [intros _; cbn; lia|].
  cbn [map filter]. intro Hnd. inversion Hnd as [|? ? Ha Hl]; subst.
  destruct (N.eqb_spec (f a) u) as [E|E]; [|now apply IH].
  rewrite filter_none; [cbn; lia|].
  intros x Hx. apply N.eqb_neq. intro Ex. apply Ha.
  rewrite E, <- Ex. now apply in_map.
Qed.

(** C9, as stated, fails on its last clause.  In the sample database every
    identity has exactly one profile; the administrator deletes the profile of
    identity 3, which no sale references, and identity 3 is left with none. *)
Lemma profile_deleted_by_admin :
  one_profile_each sample
  /\ exec_event sample (Request (Authenticated 1) 9 (DeleteRow profiles 300))
     = Ok (run sample
             [Request (Authenticated 1) 9 (DeleteRow profiles 300)])
  /\ reachable
       (run sample [Request (Authenticated 1) 9 (DeleteRow profiles 300)])
  /\ ~ one_profile_each
         (run sample [Request (Authenticated 1) 9 (DeleteRow profiles 300)]).
Proof.
  split; [|split; [|split]].
  - intros u Hin. cbn in Hin.
    repeat (destruct Hin as [<-|Hin]; [reflexivity|]). destruct Hin.
  - vm_compute. reflexivity.
  - exists sample, [Request (Authenticated 1) 9 (DeleteRow profiles 300)].
    split; [exact valid_sample | reflexivity].
  - intro H. specialize (H 3%N). vm_compute in H.
    assert (E : 0%nat = 1%nat) by (apply H; auto). discriminate E.
Qed.

(** C9, amended.  The creation of an identity with fresh keys is committed.
    A committed creation leaves the identity with exactly one profile, whose
    name and surname are those of the metadata or the placeholders "Nouveau"
    and "Utilisateur" and whose email is that of the identity, and with
    exactly one employee role assignment.  The insert of a profile for an
    identity that has one is rejected, by the policies or by the uniqueness
    constraint of [user_id]; so every identity has at most one profile in
    every reachable state. *)
Theorem identity_creation_profile_and_role :
  (forall d now pid rid new,
      valid d ->
      ~ In (AuthUsers.id new) (map AuthUsers.id (auth_users_rows d)) ->
      ~ In pid (map Profiles.id (profiles_rows d)) ->
      ~ In rid (map UserRoles.id (user_roles_rows d)) ->
      exists d', exec_event d (SignUp now pid rid new) = Ok d')
  /\ (forall d d' now pid rid new,
         exec_event d (SignUp now pid rid new) = Ok d' ->
         profiles_of d' (AuthUsers.id new)
         = [Profiles.mk pid (AuthUsers.id new)
              (COALESCE (json_text (AuthUsers.raw_user_meta_data new) "nom")
                        "Nouveau")
              (COALESCE (json_text (AuthUsers.raw_user_meta_data new) "prenom")
                        "Utilisateur")
              (AuthUsers.email new) None None now now]
         /\ roles_of d' (AuthUsers.id new) employe
            = [UserRoles.mk rid (AuthUsers.id new) employe now])
  /\ (forall d s now r p,
         In p (profiles_rows d) -> Profiles.user_id p = Profiles.user_id r ->
         exec d s now (InsertInto profiles r) = Err AuthorizationDenied
         \/ exists names,
             exec d s now (InsertInto profiles r)
             = Err (ConstraintViolation names)
             /\ In "profiles_user_id_key" names)
  /\ (forall d, reachable d ->
                forall u, (List.length (profiles_of d u) <= 1)%nat).
Proof.
  split; [|split; [|split]].
  - intros d now pid rid new Hv Hu Hp Hr.
    eexists. cbn [exec_event]. unfold insert_auth_user.
    apply check_constraints_Ok. split; [|reflexivity].
    now apply insert_auth_user_valid.
  - intros d d' now pid rid new H. committed H.
    constraint Hvalid "profiles_user_id_key" Hpk.
    constraint Hvalid "user_roles_user_id_role_key" Hrk.
    unfold profiles_of, roles_of.
    destruct (handle_new_user_rows now pid rid new
                (mkdb (auth_users_rows d ++ [new]) (garages_rows d)
                      (profiles_rows d) (user_roles_rows d) (voitures_rows d)
                      (clients_rows d) (ventes_rows d))) as [Ep Er].
    rewrite Ep in Hpk |- *. rewrite Er in Hrk |- *.
    cbn [profiles_rows user_roles_rows] in *.
    rewrite !filter_app. cbn [filter Profiles.user_id UserRoles.user_id
                                UserRoles.role app_role_eqb].
    rewrite N.eqb_refl. cbn [andb]. split.
    + rewrite filter_none; [reflexivity|].
      intros p Hin. apply N.eqb_neq. intro E.
      rewrite map_app in Hpk. apply distinct_snoc_inv in Hpk.
      apply Hpk. cbn [Profiles.user_id]. rewrite <- E. now apply in_map.
    + rewrite filter_none; [reflexivity|].
      intros r Hin. rewrite map_app in Hrk. cbn [map] in Hrk.
      rewrite distinct_by_snoc in Hrk by apply user_role_key_eqb_sym.
      apply andb_true_iff in Hrk as [_ Hrk]. apply negb_true_iff in Hrk.
      apply not_true_is_false. intro E.
      assert (Hex : existsb
                      (user_role_key_eqb (AuthUsers.id new, employe))
                      (map (fun r => (UserRoles.user_id r, UserRoles.role r))
                           (user_roles_rows d)) = true).
      { apply existsb_exists.
        exists (UserRoles.user_id r, UserRoles.role r).
        split; [apply (in_map (fun r => (UserRoles.user_id r,
                                         UserRoles.role r))); exact Hin|].
        rewrite user_role_key_eqb_sym. exact E. }
      cbn [UserRoles.user_id UserRoles.role] in Hrk.
      rewrite Hex in Hrk. discriminate Hrk.
  - intros d s now r p Hin Hu. cbn [exec]. unfold exec_insert.
    destruct (passes_check (policies profiles) INSERT d s r); [|now left].
    right. eexists.
    assert (Hviol : In "profiles_user_id_key"
                       (violated (set_rows profiles (rows profiles d ++ [r]) d))).
    { eapply violated_In; [find_constraint|].
      cbn [set_rows rows profiles_rows]. rewrite map_app.
      apply not_true_is_false. intro H. apply distinct_snoc_inv in H.
      apply H. cbn [map]. rewrite <- Hu. now apply in_map. }
    split; [eapply check_constraints_violated; exact Hviol | exact Hviol].
  - intros d Hr u. apply reachable_valid in Hr.
    constraint Hr "profiles_user_id_key" H.
    unfold profiles_of. now apply at_most_one_by_key.
Qed.

Lemma identity_creation_profile_and_role_witness :
  exists d',
    exec_event sample (SignUp 9 500 1006 sample_new_user) = Ok d'
    /\ profiles_of d' 5
       = [Profiles.mk 500 5 "Nouveau" "Zoe" (Some "zoe@autopro.fr")
            None None 9 9]
    /\ roles_of d' 5 employe = [UserRoles.mk 1006 5 employe 9]
    /\ (List.length (profiles_of sample 2) <= 1)%nat.
Proof.
  destruct identity_creation_profile_and_role as (Hc & Hy & _ & Hinv).
  destruct (Hc sample 9 500%N 1006%N sample_new_user valid_sample) as [d' E];
    try (cbn; intuition discriminate).
  exists d'. split; [exact E|].
  destruct (Hy _ _ _ _ _ _ E) as [Hp Hr].
  split; [exact Hp|split; [exact Hr|]].
  apply Hinv. exists sample, []. split; [exact valid_sample | reflexivity].
Defined.

(* ------------------------------------------------------------------------- *)
(** * Self-service change of garage *)

Lemma find_by_distinct_key {A} (f : A -> uuid) (l : list A) (x : A) (u : uuid) :
  distinct (map f l) = true -> In x l -> f x = u ->
  find (fun q => is_true (sql_eq (Some (f q)) (Some u))) l = Some x.
Proof.
  intros Hd Hin Hu. induction l as [|a l IH]; [destruct Hin|].
  cbn [find sql_eq is_true].
  destruct (N.eqb_spec (f a) u) as [E|E].
  - f_equal. apply (distinct_key f (a :: l)); auto.
    + now left.
    + congruence.
  - destruct Hin as [->|Hin]; [contradiction|].
    apply IH; [|exact Hin].
    unfold distinct in *. cbn [map distinct_by] in Hd.
    now apply andb_true_iff in Hd.
Qed.

Lemma profile_update_valid (d : db) (k g : uuid) (p : Profiles.row)
    (now : timestamptz) :
  valid d ->
  lookup_row profiles k d = Some p ->
  In g (map Garages.id (garages_rows d)) ->
  valid (set_rows profiles
           (replace_row profiles k
              (before_update profiles now (set_garage (Some g) p))
              (rows profiles d))
           d).
Proof.
  intros Hv Hfound Hg.
  destruct (lookup_row_Some _ _ _ Hfound) as [Hin Hk].
  cbn [rows pk] in Hin, Hk.
  constraint Hv "profiles_pkey" Hpk.
  constraint Hv "profiles_user_id_fkey" Hfk.
  assert (Hsame : forall r, In r (profiles_rows d) -> Profiles.id r = k ->
                            r = p).
  { intros r Hr Er. apply (distinct_key Profiles.id (profiles_rows d));
      auto. congruence. }
  assert (Eid : map Profiles.id
                  (replace_row profiles k
                     (before_update profiles now (set_garage (Some g) p))
                     (profiles_rows d))
                = map Profiles.id (profiles_rows d)).
  { apply map_replace_row. intros r Hr Er. cbn [pk] in Er.
    now rewrite (Hsame r Hr Er). }
  assert (Eu : map Profiles.user_id
                  (replace_row profiles k
                     (before_update profiles now (set_garage (Some g) p))
                     (profiles_rows d))
                = map Profiles.user_id (profiles_rows d)).
  { apply map_replace_row. intros r Hr Er. cbn [pk] in Er.
    now rewrite (Hsame r Hr Er). }
  preserved Hv.
  - (* profiles_pkey *) now rewrite Eid.
  - (* profiles_user_id_key *) now rewrite Eu.
  - (* profiles_user_id_fkey *)
    apply forallb_replace_row; [exact Hold|].
    rewrite forallb_forall in Hfk. apply (Hfk p Hin).
  - (* profiles_garage_id_fkey *)
    apply forallb_replace_row; [exact Hold|].
    cbn. now apply refers_In.
  - (* ventes_employe_id_fkey *) now rewrite Eid.
Qed.

(** C3.  The update of a profile by its own identity is permitted as soon as
    the old and the new row carry that identity in [user_id]; nothing is asked
    of [garage_id].  So an identity with a profile, administrator or not, may
    set the garage of its profile to any existing garage: the statement is
    committed, [get_user_garage] then resolves to that garage, and the cars,
    clients and sales of that garage become readable to it. *)
Theorem self_update_reassigns_garage :
  (forall d u old new,
      Profiles.user_id old = u -> Profiles.user_id new = u ->
      authorize profiles d (Authenticated u) (Update old new) = true)
  /\ (forall d u k p g now,
         valid d ->
         lookup_row profiles k d = Some p ->
         Profiles.user_id p = u ->
         In g (map Garages.id (garages_rows d)) ->
         exists d',
           exec d (Authenticated u) now
                (UpdateRow profiles k (set_garage (Some g))) = Ok d'
           /\ get_user_garage d' (Some u) = Some g
           /\ forall R (t : table R) (garage_id : R -> uuid) (r : R),
               tenant t = Some garage_id -> garage_id r = g ->
               authorize t d' (Authenticated u) (Select r) = true).
Proof.
  assert (Hself : forall d u old new,
      Profiles.user_id old = u -> Profiles.user_id new = u ->
      authorize profiles d (Authenticated u) (Update old new) = true).
  { intros d u old new Eo En. decide_rls. cbn [sql_eq].
    rewrite Eo, En, N.eqb_refl. cbn.
    now rewrite !orb_true_r. }
  split; [exact Hself|].
  intros d u k p g now Hv Hfound Hu Hg.
  pose proof (@profile_update_valid d k g p now Hv Hfound Hg) as Hv'.
  destruct (lookup_row_Some _ _ _ Hfound) as [Hin Hk].
  eexists. split; [|split].
  - cbn [exec]. unfold exec_update. rewrite Hfound.
    pose proof (Hself d u p
                  (before_update profiles now (set_garage (Some g) p))
                  Hu Hu) as Hauth.
    cbn [authorize] in Hauth. apply andb_true_iff in Hauth as [Ha Hb].
    rewrite Ha. cbv zeta. rewrite Hb.
    apply check_constraints_Ok. split; [exact Hv' | reflexivity].
  - constraint Hv' "profiles_user_id_key" Hkey.
    unfold get_user_garage. cbn [set_rows profiles_rows rows] in Hkey |- *.
    rewrite (@find_by_distinct_key _ Profiles.user_id _
               (before_update profiles now (set_garage (Some g) p)) u Hkey).
    + reflexivity.
    + now apply (In_replaced profiles) with p.
    + exact Hu.
  - intros R t gid r Ht Hr.
    assert (HG : get_user_garage
                   (set_rows profiles
                      (replace_row profiles k
                         (before_update profiles now (set_garage (Some g) p))
                         (rows profiles d)) d) (Some u) = Some g).
    { constraint Hv' "profiles_user_id_key" Hkey.
      unfold get_user_garage. cbn [set_rows profiles_rows rows] in Hkey |- *.
      rewrite (@find_by_distinct_key _ Profiles.user_id _
                 (before_update profiles now (set_garage (Some g) p)) u Hkey).
      + reflexivity.
      + now apply (In_replaced profiles) with p.
      + exact Hu. }
    scoped t Ht; decide_rls; rewrite HG, Hr, N.eqb_refl; reflexivity.
Qed.

Lemma self_update_reassigns_garage_witness :
  exists d',
    exec sample (Authenticated 2) 9
         (UpdateRow profiles 200 (set_garage (Some 20%N))) = Ok d'
    /\ get_user_garage d' (Some 2%N) = Some 20%N
    /\ authorize ventes d' (Authenticated 2) (Select sale_garage_20) = true.
Proof.
  destruct self_update_reassigns_garage as (_ & H).
  destruct (H sample 2%N 200%N
              (Profiles.mk 200 2 "Martin" "Utilisateur"
                 (Some "vendeur@autopro.fr") None (Some 10%N) 5 5)
              20%N 9 valid_sample eq_refl eq_refl)
    as (d' & E & HG & Hread).
  - right. left. reflexivity.
  - exists d'. split; [exact E|split; [exact HG|]].
    apply (Hread _ ventes Ventes.garage_id); reflexivity.
Defined.

(* ------------------------------------------------------------------------- *)
(** * Profiles, role assignments and garages *)

Ltac by_key_test :=
  cbn [sql_eq is_true];
  repeat match goal with
         | |- context [N.eqb ?a ?b] => destruct (N.eqb_spec a b); subst
         end;
  cbn [andb orb]; try reflexivity;
  try (split; intros; try discriminate; intuition congruence).

(** X1.  A caller without the admin role reads a profile exactly when it is
    its own, updates a profile exactly when the row carries its identity
    before and after the update, so that it cannot hand a profile over to
    another identity, and neither inserts nor deletes a profile. *)
Theorem profile_own_only (d : db) (u : uuid) :
  has_role d (Some u) admin = false ->
  (forall p, authorize profiles d (Authenticated u) (Select p) = true
             <-> Profiles.user_id p = u)
  /\ (forall old new,
         authorize profiles d (Authenticated u) (Update old new) = true
         <-> Profiles.user_id old = u /\ Profiles.user_id new = u)
  /\ (forall p, authorize profiles d (Authenticated u) (Insert p) = false)
  /\ (forall p, authorize profiles d (Authenticated u) (Delete p) = false).
Proof.
  intro Hadmin. split; [|split; [|split]]; intros; decide_rls;
    rewrite Hadmin; by_key_test.
Qed.

Lemma profile_own_only_witness :
  authorize profiles sample (Authenticated 2)
    (Update (Profiles.mk 200 2 "Martin" "Utilisateur" None None (Some 10%N) 5 5)
            (Profiles.mk 200 3 "Martin" "Utilisateur" None None (Some 10%N) 5 5))
  = false.
Proof.
  destruct (@profile_own_only sample 2%N eq_refl) as (_ & Hupd & _).
  apply not_true_is_false. intro H. apply Hupd in H as [_ H]. discriminate H.
Defined.

(** X2.  A caller without the admin role reads a role assignment exactly when
    it is one of its own and a garage exactly when it is the garage of its
    profile; it is denied every insert, update and delete of role assignments
    and of garages. *)
Theorem roles_and_garages_read_only (d : db) (u : uuid) :
  has_role d (Some u) admin = false ->
  (forall r, authorize user_roles d (Authenticated u) (Select r) = true
             <-> UserRoles.user_id r = u)
  /\ (forall g, authorize garages d (Authenticated u) (Select g) = true
                <-> get_user_garage d (Some u) = Some (Garages.id g))
  /\ (forall q, is_write q = true ->
                authorize user_roles d (Authenticated u) q = false)
  /\ (forall q, is_write q = true ->
                authorize garages d (Authenticated u) q = false).
Proof.
  intro Hadmin. split; [|split; [|split]].
  - intro r. decide_rls. rewrite Hadmin. by_key_test.
  - intro g. decide_rls. rewrite Hadmin.
    destruct (get_user_garage d (Some u)) as [G|]; by_key_test.
  - intros [r|r|old new|r] Hq; try discriminate Hq; decide_rls;
      rewrite Hadmin; reflexivity.
  - intros [r|r|old new|r] Hq; try discriminate Hq; decide_rls;
      rewrite Hadmin; reflexivity.
Qed.

Lemma roles_and_garages_read_only_witness :
  authorize user_roles sample (Authenticated 4)
    (Insert (UserRoles.mk 1006 4 admin 9)) = false
  /\ authorize garages sample (Authenticated 4)
       (Select (Garages.mk 20 "Garage B" None None None 5 5)) = false.
Proof.
  destruct (@roles_and_garages_read_only sample 4%N eq_refl)
    as (_ & Hg & Hr & _).
  split.
  - apply Hr. reflexivity.
  - apply not_true_is_false. intro H. apply Hg in H. discriminate H.
Defined.

(** A write on role assignments or on garages is permitted to administrators
    only. *)
Lemma admin_only_tables {R} (t : table R) (d : db) (s : session) (q : dml R) :
  match t with garages | user_roles => True | _ => False end ->
  is_write q = true ->
  authorize t d s q = true -> has_role d (auth_uid s) admin = true.
Proof.
  intros Ht Hq H. destruct s as [|u]; [now rewrite authorize_anon in H|].
  destruct (has_role d (auth_uid (Authenticated u)) admin) eqn:E;
    [reflexivity|].
  cbn [auth_uid] in E.
  destruct t; try destruct Ht; destruct q; try discriminate Hq;
    revert H; decide_rls; rewrite E; discriminate.
Qed.

(** A committed statement of a caller without the admin role touches neither
    the role assignments nor the garages. *)
Lemma roles_and_garages_kept (d d' : db) (s : session) (now : timestamptz)
    (q : statement) :
  has_role d (auth_uid s) admin = false ->
  exec_event d (Request s now q) = Ok d' ->
  user_roles_rows d' = user_roles_rows d /\ garages_rows d' = garages_rows d.
Proof.
  intros Hadmin H.
  destruct q as [R t r|R t k set|R t k]; committed H.
  - destruct t; try (split; reflexivity);
      apply admin_only_tables in Hpass; cbn; auto; congruence.
  - destruct t; try (split; reflexivity);
      apply admin_only_tables in Hpass; cbn; auto; congruence.
  - destruct t; try (split; reflexivity);
      apply admin_only_tables in Hpass; cbn; auto; congruence.
Qed.

(** X3.  A committed statement of a caller without the admin role leaves the
    role assignments and the garages as they were: no such caller gives
    itself or another identity a role. *)
Theorem non_admin_keeps_roles_and_garages (d d' : db) (s : session)
    (now : timestamptz) (q : statement) :
  has_role d (auth_uid s) admin = false ->
  exec_event d (Request s now q) = Ok d' ->
  user_roles_rows d' = user_roles_rows d
  /\ garages_rows d' = garages_rows d
  /\ forall x a, has_role d' x a = has_role d x a.
Proof.
  intros Hadmin H.
  destruct (@roles_and_garages_kept d d' s now q Hadmin H) as [Hr Hg].
  split; [exact Hr|split; [exact Hg|]].
  intros x a. unfold has_role. now rewrite Hr.
Qed.

Lemma non_admin_keeps_roles_and_garages_witness :
  exists d',
    exec_event sample
      (Request (Authenticated 2) 9
         (UpdateRow profiles 200 (set_garage (Some 20%N)))) = Ok d'
    /\ has_role d' (Some 2%N) admin = false
    /\ has_role d' (Some 2%N) responsable = false.
Proof.
  eexists. split; [vm_compute; reflexivity|].
  destruct (@non_admin_keeps_roles_and_garages sample _ (Authenticated 2) 9
              (UpdateRow profiles 200 (set_garage (Some 20%N)))
              eq_refl eq_refl) as (_ & _ & H).
  split; rewrite H; reflexivity.
Defined.

(** X4.  A manager of garage [G] without the admin role updates a sale
    exactly when the sale is recorded under [G] before and after the update;
    a caller with neither the manager nor the admin role updates no sale. *)
Theorem sale_update_manager_own_garage (d : db) (u : uuid) :
  has_role d (Some u) admin = false ->
  (forall G,
      has_role d (Some u) responsable = true ->
      get_user_garage d (Some u) = Some G ->
      forall old new,
        authorize ventes d (Authenticated u) (Update old new) = true
        <-> Ventes.garage_id old = G /\ Ventes.garage_id new = G)
  /\ (has_role d (Some u) responsable = false ->
      forall old new,
        authorize ventes d (Authenticated u) (Update old new) = false).
Proof.
  intro Hadmin. split.
  - intros G Hresp HG old new. decide_rls. rewrite Hadmin, Hresp, HG.
    by_garage_test.
  - intros Hresp old new. decide_rls. rewrite Hadmin, Hresp.
    destruct (get_user_garage d (Some u)); rewrite ?andb_false_r; reflexivity.
Qed.

Lemma sale_update_manager_own_garage_witness :
  authorize ventes sample (Authenticated 4)
    (Update sample_sale sale_garage_20) = false
  /\ authorize ventes sample (Authenticated 2)
       (Update sample_sale sample_sale) = false.
Proof.
  destruct (@sale_update_manager_own_garage sample 4%N eq_refl) as [Hm _].
  destruct (@sale_update_manager_own_garage sample 2%N eq_refl) as [_ He].
  split.
  - apply not_true_is_false. intro H.
    apply (Hm 10%N eq_refl eq_refl) in H as [_ H]. discriminate H.
  - apply He. reflexivity.
Defined.

Lemma passes_anon {R} (t : table R) (c : command) (d : db) (r : R) :
  passes_using (policies t) c d Anon r = false
  /\ passes_check (policies t) c d Anon r = false.
Proof. destruct t, c; split; reflexivity. Qed.

(** X5.  Every policy is declared TO authenticated and row-level security is
    enabled on the six tables: an anonymous session reads no row and none of
    its statements is committed.  Its inserts are refused by the policies; its
    updates and deletes find no row. *)
Theorem anonymous_reads_and_writes_nothing :
  (forall R (t : table R) d, visible t d Anon = [])
  /\ (forall d now q,
         exec d Anon now q = Err AuthorizationDenied
         \/ exec d Anon now q = Err NotFound)
  /\ (forall R (t : table R) d now r,
         exec d Anon now (InsertInto t r) = Err AuthorizationDenied)
  /\ (forall R (t : table R) d now k set,
         exec d Anon now (UpdateRow t k set) = Err NotFound)
  /\ (forall R (t : table R) d now k,
         exec d Anon now (DeleteRow t k) = Err NotFound).
Proof.
  assert (Hins : forall R (t : table R) d now r,
             exec d Anon now (InsertInto t r) = Err AuthorizationDenied).
  { intros R t d now r. cbn [exec]. unfold exec_insert.
    now rewrite (proj2 (passes_anon t INSERT d r)). }
  assert (Hupd : forall R (t : table R) d now k set,
             exec d Anon now (UpdateRow t k set) = Err NotFound).
  { intros R t d now k set. cbn [exec]. unfold exec_update.
    destruct (lookup_row t k d) as [old|]; [|reflexivity].
    now rewrite (proj1 (passes_anon t UPDATE d old)). }
  assert (Hdel : forall R (t : table R) d now k,
             exec d Anon now (DeleteRow t k) = Err NotFound).
  { intros R t d now k. cbn [exec]. unfold exec_delete.
    destruct (lookup_row t k d) as [old|]; [|reflexivity].
    now rewrite (proj1 (passes_anon t DELETE d old)). }
  split; [|split; [|split; [|split]]]; auto.
  - intros R t d. unfold visible. apply filter_none.
    intros r _. apply authorize_anon.
  - intros d now [R t r|R t k set|R t k]; [left|right|right]; auto.
Qed.

(* ------------------------------------------------------------------------- *)
(** * Statements the constraints refuse *)

Lemma insert_rejected {R} (t : table R) (d : db) (s : session)
    (now : timestamptz) (r : R) (name : string) (chk : db -> bool) :
  In (name, chk) constraints ->
  chk (set_rows t (rows t d ++ [r]) d) = false ->
  rejected (exec d s now (InsertInto t r)) name.
Proof.
  intros Hc Hchk. cbn [exec]. unfold exec_insert, rejected.
  destruct (passes_check (policies t) INSERT d s r); [|now left].
  right; right. eexists. split.
  - apply check_constraints_violated with name.
    now apply violated_In with chk.
  - now apply violated_In with chk.
Qed.

Lemma update_rejected {R} (t : table R) (d : db) (s : session)
    (now : timestamptz) (k : uuid) (set : R -> R) (name : string)
    (chk : db -> bool) :
  In (name, chk) constraints ->
  (forall old,
      lookup_row t k d = Some old ->
      chk (set_rows t
             (replace_row t k (before_update t now (set old)) (rows t d)) d)
      = false) ->
  rejected (exec d s now (UpdateRow t k set)) name.
Proof.
  intros Hc Hchk. cbn [exec]. unfold exec_update, rejected.
  destruct (lookup_row t k d) as [old|]; [|right; now left].
  specialize (Hchk old eq_refl).
  destruct (passes_using (policies t) UPDATE d s old); [|right; now left].
  cbv zeta.
  destruct (passes_check (policies t) UPDATE d s _); [|now left].
  right; right. eexists. split.
  - apply check_constraints_violated with name.
    now apply violated_In with chk.
  - now apply violated_In with chk.
Qed.

Lemma forallb_snoc_false {A} (f : A -> bool) (l : list A) (x : A) :
  f x = false -> forallb f (l ++ [x]) = false.
Proof.
  intro H. apply forallb_false_In with x; [|exact H].
  apply in_or_app. right. now left.
Qed.

Lemma not_refers (keys : list uuid) (k : uuid) :
  ~ In k keys -> refers keys k = false.
Proof.
  intro H. apply not_true_is_false. intro E. now apply refers_In in E.
Qed.

Lemma one_of_In (x : string) (l : list string) :
  existsb (String.eqb x) l = true <-> In x l.
Proof.
  rewrite existsb_exists. split.
  - intros (y & Hin & E). apply String.eqb_eq in E. now subst.
  - intro H. exists x. split; [exact H | apply String.eqb_refl].
Qed.

Lemma not_one_of (x : string) (l : list string) :
  ~ In x l -> existsb (String.eqb x) l = false.
Proof.
  intro H. apply not_true_is_false. intro E. now apply one_of_In in E.
Qed.

Lemma rejected_not_committed (res : result db) (name : string) :
  rejected res name -> exists e, res = Err e.
Proof.
  intros [->|[->|(names & -> & _)]]; eexists; reflexivity.
Qed.

(** X6.  The CHECK constraints on [carburant] and [etat]: in every reachable
    state each car has one of the five fuels and one of the three conditions,
    and the insert of a car with another fuel or another condition, or an
    update that gives one to a car, is not committed, whoever asks. *)
Theorem fuel_and_condition_checked :
  (forall d, reachable d ->
             forall v, In v (voitures_rows d) ->
                       In (Voitures.carburant v) carburants
                       /\ In (Voitures.etat v) etats)
  /\ (forall d s now r,
         ~ In (Voitures.carburant r) carburants
         \/ ~ In (Voitures.etat r) etats ->
         exists e, exec d s now (InsertInto voitures r) = Err e)
  /\ (forall d s now k set,
         (forall old, lookup_row voitures k d = Some old ->
                      ~ In (Voitures.carburant (set old)) carburants
                      \/ ~ In (Voitures.etat (set old)) etats) ->
         exists e, exec d s now (UpdateRow voitures k set) = Err e).
Proof.
  split; [|split].
  - intros d Hr v Hin. apply reachable_valid in Hr.
    constraint Hr "voitures_carburant_check" Hc.
    constraint Hr "voitures_etat_check" He.
    rewrite forallb_forall in Hc, He. split; apply one_of_In; auto.
  - intros d s now r [Hbad|Hbad].
    + apply rejected_not_committed with "voitures_carburant_check".
      eapply insert_rejected; [find_constraint|].
      cbn [set_rows rows voitures_rows].
      apply forallb_snoc_false. now apply not_one_of.
    + apply rejected_not_committed with "voitures_etat_check".
      eapply insert_rejected; [find_constraint|].
      cbn [set_rows rows voitures_rows].
      apply forallb_snoc_false. now apply not_one_of.
  - intros d s now k set Hbad.
    destruct (lookup_row voitures k d) as [old|] eqn:Hfound.
    + destruct (lookup_row_Some _ _ _ Hfound) as [Hin Hk].
      destruct (Hbad old eq_refl) as [Hc|He].
      * apply rejected_not_committed with "voitures_carburant_check".
        eapply update_rejected; [find_constraint|].
        intros old' Hfound'. rewrite Hfound in Hfound'.
        injection Hfound' as <-.
        cbn [set_rows rows voitures_rows].
        eapply forallb_false_In; [now apply (In_replaced voitures) with old|].
        apply not_one_of. exact Hc.
      * apply rejected_not_committed with "voitures_etat_check".
        eapply update_rejected; [find_constraint|].
        intros old' Hfound'. rewrite Hfound in Hfound'.
        injection Hfound' as <-.
        cbn [set_rows rows voitures_rows].
        eapply forallb_false_In; [now apply (In_replaced voitures) with old|].
        apply not_one_of. exact He.
    + exists NotFound. cbn [exec]. unfold exec_update. now rewrite Hfound.
Qed.

Lemma fuel_and_condition_checked_witness :
  In (Voitures.carburant sample_car) carburants
  /\ (exists e,
         exec sample (Authenticated 4) 9
           (InsertInto voitures
              (Voitures.mk 501 10 "Peugeot" "208" 2021 1200000 None
                 "kerosene" "neuf" true None None None 9 9)) = Err e)
  /\ (exists e,
         exec sample (Authenticated 4) 9
           (UpdateRow voitures 500
              (fun v =>
                 Voitures.mk (Voitures.id v) (Voitures.garage_id v)
                   (Voitures.marque v) (Voitures.modele v) (Voitures.annee v)
                   (Voitures.prix v) (Voitures.kilometrage v)
                   (Voitures.carburant v) "epave" (Voitures.disponible v)
                   (Voitures.couleur v) (Voitures.description v)
                   (Voitures.image_url v) (Voitures.created_at v)
                   (Voitures.updated_at v))) = Err e).
Proof.
  destruct fuel_and_condition_checked as (Hinv & Hins & Hupd).
  split; [|split].
  - apply (Hinv sample).
    + exists sample, []. split; [exact valid_sample | reflexivity].
    + left. reflexivity.
  - apply Hins. left. cbn. intuition discriminate.
  - apply Hupd. intros old _. right. cbn. intuition discriminate.
Defined.

Lemma at_most_one_role (l : list UserRoles.row) (u : uuid) (a : app_role) :
  distinct_by user_role_key_eqb
    (map (fun r => (UserRoles.user_id r, UserRoles.role r)) l) = true ->
  (List.length
     (filter (fun r => N.eqb (UserRoles.user_id r) u
                       && app_role_eqb (UserRoles.role r) a) l) <= 1)%nat.
Proof.
  induction l as [|x l IH]; [intros _; cbn; lia|].
  cbn [map distinct_by filter]. intro H.
  apply andb_true_iff in H as [Hx Hl]. apply negb_true_iff in Hx.
  destruct (N.eqb (UserRoles.user_id x) u
            && app_role_eqb (UserRoles.role x) a) eqn:E; [|now apply IH].
  rewrite filter_none; [cbn; lia|].
  intros y Hy. apply not_true_is_false. intro Ey.
  apply andb_true_iff in E as [E1 E2]. apply andb_true_iff in Ey as [Ey1 Ey2].
  apply N.eqb_eq in E1, Ey1.
  assert (Hex : existsb
                  (user_role_key_eqb (UserRoles.user_id x, UserRoles.role x))
                  (map (fun r => (UserRoles.user_id r, UserRoles.role r)) l)
                = true).
  { apply existsb_exists.
    exists (UserRoles.user_id y, UserRoles.role y). split.
    - apply (in_map (fun r => (UserRoles.user_id r, UserRoles.role r))).
      exact Hy.
    - unfold user_role_key_eqb. cbn [fst snd].
      rewrite E1, Ey1, N.eqb_refl. cbn [andb].
      destruct (UserRoles.role x), (UserRoles.role y), a;
        try reflexivity; discriminate. }
  rewrite Hex in Hx. discriminate Hx.
Qed.

(** X7.  UNIQUE (user_id, role): in every reachable state an identity holds
    each role at most once, and the insert of a role assignment for a role the
    identity already holds is not committed. *)
Theorem role_held_at_most_once :
  (forall d, reachable d ->
             forall u a, (List.length (roles_of d u a) <= 1)%nat)
  /\ (forall d s now r r0,
         In r0 (user_roles_rows d) ->
         UserRoles.user_id r0 = UserRoles.user_id r ->
         UserRoles.role r0 = UserRoles.role r ->
         rejected (exec d s now (InsertInto user_roles r))
                  "user_roles_user_id_role_key").
Proof.
  split.
  - intros d Hr u a. apply reachable_valid in Hr.
    constraint Hr "user_roles_user_id_role_key" H.
    unfold roles_of. now apply at_most_one_role.
  - intros d s now r r0 Hin Hu Ha.
    eapply insert_rejected; [find_constraint|].
    cbn [set_rows rows user_roles_rows]. rewrite map_app. cbn [map].
    rewrite distinct_by_snoc by apply user_role_key_eqb_sym.
    apply andb_false_iff. right. apply negb_false_iff.
    apply existsb_exists.
    exists (UserRoles.user_id r0, UserRoles.role r0). split.
    + apply (in_map (fun r => (UserRoles.user_id r, UserRoles.role r))).
      exact Hin.
    + unfold user_role_key_eqb. cbn [fst snd].
      rewrite Hu, Ha, N.eqb_refl. now destruct (UserRoles.role r).
Qed.

Lemma role_held_at_most_once_witness :
  (List.length (roles_of sample 4 responsable) <= 1)%nat
  /\ rejected
       (exec sample (Authenticated 1) 9
          (InsertInto user_roles (UserRoles.mk 1006 4 responsable 9)))
       "user_roles_user_id_role_key".
Proof.
  destruct role_held_at_most_once as (Hinv & Hins).
  split.
  - apply Hinv. exists sample, []. split; [exact valid_sample | reflexivity].
  - apply Hins with (r0 := UserRoles.mk 1005 4 responsable 5);
      [cbn; tauto | reflexivity | reflexivity].
Defined.

(** X8.  The foreign keys of a sale and of the garage-scoped rows: in every
    reachable state each sale references an existing car, client and profile;
    the insert of a sale that names a missing car, client or profile, and the
    insert of a car or a client under a missing garage, are not committed. *)
Theorem references_exist :
  (forall d, reachable d ->
     forall v, In v (ventes_rows d) ->
       In (Ventes.voiture_id v) (map Voitures.id (voitures_rows d))
       /\ In (Ventes.client_id v) (map Clients.id (clients_rows d))
       /\ In (Ventes.employe_id v) (map Profiles.id (profiles_rows d)))
  /\ (forall d s now r,
         ~ In (Ventes.voiture_id r) (map Voitures.id (voitures_rows d)) ->
         rejected (exec d s now (InsertInto ventes r))
                  "ventes_voiture_id_fkey")
  /\ (forall d s now r,
         ~ In (Ventes.client_id r) (map Clients.id (clients_rows d)) ->
         rejected (exec d s now (InsertInto ventes r)) "ventes_client_id_fkey")
  /\ (forall d s now r,
         ~ In (Ventes.employe_id r) (map Profiles.id (profiles_rows d)) ->
         rejected (exec d s now (InsertInto ventes r))
                  "ventes_employe_id_fkey")
  /\ (forall d s now r,
         ~ In (Voitures.garage_id r) (map Garages.id (garages_rows d)) ->
         rejected (exec d s now (InsertInto voitures r))
                  "voitures_garage_id_fkey")
  /\ (forall d s now r,
         ~ In (Clients.garage_id r) (map Garages.id (garages_rows d)) ->
         rejected (exec d s now (InsertInto clients r))
                  "clients_garage_id_fkey").
Proof.
  split; [|repeat split].
  - intros d Hr v Hin. apply reachable_valid in Hr.
    constraint Hr "ventes_voiture_id_fkey" H1.
    constraint Hr "ventes_client_id_fkey" H2.
    constraint Hr "ventes_employe_id_fkey" H3.
    rewrite forallb_forall in H1, H2, H3.
    repeat split; apply refers_In; auto.
  - intros d s now r Hmiss. eapply insert_rejected; [find_constraint|].
    cbn [set_rows rows voitures_rows ventes_rows].
    apply forallb_snoc_false. now apply not_refers.
  - intros d s now r Hmiss. eapply insert_rejected; [find_constraint|].
    cbn [set_rows rows clients_rows ventes_rows].
    apply forallb_snoc_false. now apply not_refers.
  - intros d s now r Hmiss. eapply insert_rejected; [find_constraint|].
    cbn [set_rows rows profiles_rows ventes_rows].
    apply forallb_snoc_false. now apply not_refers.
  - intros d s now r Hmiss. eapply insert_rejected; [find_constraint|].
    cbn [set_rows rows garages_rows voitures_rows].
    apply forallb_snoc_false. now apply not_refers.
  - intros d s now r Hmiss. eapply insert_rejected; [find_constraint|].
    cbn [set_rows rows garages_rows clients_rows].
    apply forallb_snoc_false. now apply not_refers.
Qed.

Lemma references_exist_witness :
  In (Ventes.employe_id sample_sale) (map Profiles.id (profiles_rows sample))
  /\ rejected
       (exec sample (Authenticated 2) 9
          (InsertInto ventes (Ventes.mk 702 999 600 200 10 1000000 9 None 9)))
       "ventes_voiture_id_fkey".
Proof.
  destruct references_exist as (Hinv & Hcar & _).
  split.
  - apply (Hinv sample).
    + exists sample, []. split; [exact valid_sample | reflexivity].
    + left. reflexivity.
  - apply Hcar. cbn. intuition discriminate.
Defined.

(* ------------------------------------------------------------------------- *)
(** * Referential actions across garages *)

(** X9.  A garage is not deleted while a sale recorded under another garage
    references one of its cars or one of its clients: the cascade would
    remove the car or the client, which ON DELETE RESTRICT on the sale
    refuses. *)
Theorem garage_delete_blocked_by_foreign_sale (d : db) (s : session)
    (now : timestamptz) (k : uuid) (v : Ventes.row) :
  valid d ->
  In v (ventes_rows d) ->
  Ventes.garage_id v <> k ->
  (forall c, In c (voitures_rows d) ->
             Voitures.id c = Ventes.voiture_id v -> Voitures.garage_id c = k ->
             restricted (exec d s now (DeleteRow garages k))
                        "ventes_voiture_id_fkey")
  /\ (forall c, In c (clients_rows d) ->
                Clients.id c = Ventes.client_id v -> Clients.garage_id c = k ->
                restricted (exec d s now (DeleteRow garages k))
                           "ventes_client_id_fkey").
Proof.
  intros Hv Hin Hg. split; intros c Hc Hid Hk.
  - constraint Hv "voitures_pkey" Hpk.
    eapply delete_restricted; [find_constraint|].
    cbn [on_delete set_rows rows voitures_rows ventes_rows].
    apply forallb_false_In with v; [now apply In_cascade|].
    apply not_refers. intro Hex.
    apply in_map_iff in Hex as (c' & Hid' & Hc').
    apply In_cascade in Hc' as [Hc' Hk'].
    assert (c' = c)
      by (apply (distinct_key Voitures.id (voitures_rows d)); auto;
          congruence).
    subst c'. contradiction.
  - constraint Hv "clients_pkey" Hpk.
    eapply delete_restricted; [find_constraint|].
    cbn [on_delete set_rows rows clients_rows ventes_rows].
    apply forallb_false_In with v; [now apply In_cascade|].
    apply not_refers. intro Hex.
    apply in_map_iff in Hex as (c' & Hid' & Hc').
    apply In_cascade in Hc' as [Hc' Hk'].
    assert (c' = c)
      by (apply (distinct_key Clients.id (clients_rows d)); auto;
          congruence).
    subst c'. contradiction.
Qed.

(** X10.  No ON UPDATE action is declared on the foreign keys: an update that
    changes the [id] of a garage that a car references, or the [id] of a car
    that a sale references, is not committed. *)
Theorem referenced_key_not_changed :
  (forall d s now k set v,
      In v (voitures_rows d) -> Voitures.garage_id v = k ->
      (forall g, Garages.id (set g) <> k) ->
      rejected (exec d s now (UpdateRow garages k set))
               "voitures_garage_id_fkey")
  /\ (forall d s now k set v,
         In v (ventes_rows d) -> Ventes.voiture_id v = k ->
         (forall c, Voitures.id (set c) <> k) ->
         rejected (exec d s now (UpdateRow voitures k set))
                  "ventes_voiture_id_fkey").
Proof.
  split; intros d s now k set v Hin Hk Hset.
  - eapply update_rejected; [find_constraint|]. intros old _.
    cbn [set_rows rows garages_rows voitures_rows].
    apply forallb_false_In with v; [exact Hin|].
    rewrite Hk. apply not_refers. intro Hex.
    apply in_map_iff in Hex as (g & Hid & Hg).
    unfold replace_row in Hg. apply in_map_iff in Hg as (g0 & E & _).
    cbn [pk] in E. destruct (N.eqb_spec (Garages.id g0) k) as [E0|E0].
    + subst g. now apply (Hset old).
    + subst g. contradiction.
  - eapply update_rejected; [find_constraint|]. intros old _.
    cbn [set_rows rows voitures_rows ventes_rows].
    apply forallb_false_In with v; [exact Hin|].
    rewrite Hk. apply not_refers. intro Hex.
    apply in_map_iff in Hex as (c & Hid & Hc).
    unfold replace_row in Hc. apply in_map_iff in Hc as (c0 & E & _).
    cbn [pk] in E. destruct (N.eqb_spec (Voitures.id c0) k) as [E0|E0].
    + subst c. now apply (Hset old).
    + subst c. contradiction.
Qed.

Lemma referenced_key_not_changed_witness :
  rejected
    (exec sample (Authenticated 1) 9
       (UpdateRow garages 10
          (fun g => Garages.mk 11 (Garages.nom g) (Garages.adresse g)
                      (Garages.telephone g) (Garages.email g)
                      (Garages.created_at g) (Garages.updated_at g))))
    "voitures_garage_id_fkey".
Proof.
  destruct referenced_key_not_changed as [H _].
  apply H with (v := sample_car); [cbn; tauto | reflexivity |].
  intros g. cbn. discriminate.
Defined.

Lemma find_map_same_test {A} (P : A -> bool) (f : A -> A) (l : list A) :
  (forall x, P (f x) = P x) ->
  find P (map f l) = option_map f (find P l).
Proof.
  intro H. induction l as [|a l IH]; [reflexivity|].
  cbn [map find]. rewrite H. destruct (P a); [reflexivity | exact IH].
Qed.

(** X11.  The committed deletion of a garage leaves its members without
    garage: [get_user_garage] resolves to NULL for every identity whose
    garage it was, and is unchanged for the others.  The profiles that are
    set to NULL go through the [updated_at] trigger. *)
Theorem garage_delete_unassigns_members (d d' : db) (s : session)
    (now : timestamptz) (k : uuid) :
  exec d s now (DeleteRow garages k) = Ok d' ->
  (forall u, get_user_garage d (Some u) = Some k ->
             get_user_garage d' (Some u) = None)
  /\ (forall u, get_user_garage d (Some u) <> Some k ->
                get_user_garage d' (Some u) = get_user_garage d (Some u))
  /\ (forall p, In p (profiles_rows d) -> Profiles.garage_id p = Some k ->
                In (set_updated_at now (set_garage None p))
                   (profiles_rows d')).
Proof.
  intro H.
  change (exec d s now (DeleteRow garages k))
    with (exec_event d (Request s now (DeleteRow garages k))) in H.
  committed H.
  cbn [on_delete set_rows rows profiles_rows].
  assert (Hg : forall u,
             get_user_garage
               (mkdb (auth_users_rows d) (remove_row garages k (garages_rows d))
                  (map (profiles_set_null now k) (profiles_rows d))
                  (user_roles_rows d)
                  (filter (fun v => negb (N.eqb (Voitures.garage_id v) k))
                          (voitures_rows d))
                  (filter (fun c => negb (N.eqb (Clients.garage_id c) k))
                          (clients_rows d))
                  (filter (fun v => negb (N.eqb (Ventes.garage_id v) k))
                          (ventes_rows d)))
               (Some u)
             = match find (fun p => is_true (sql_eq (Some (Profiles.user_id p))
                                                    (Some u)))
                          (profiles_rows d) with
               | Some p => Profiles.garage_id (profiles_set_null now k p)
               | None => None
               end).
  { intro u. unfold get_user_garage. cbn [profiles_rows].
    rewrite find_map_same_test
      by (intro x; now rewrite profiles_set_null_user).
    now destruct (find _ (profiles_rows d)). }
  split; [|split].
  - intros u Hu. rewrite Hg. unfold get_user_garage in Hu.
    destruct (find _ (profiles_rows d)) as [p|]; [|reflexivity].
    now apply profiles_set_null_garage.
  - intros u Hu. rewrite Hg. unfold get_user_garage in Hu |- *.
    destruct (find _ (profiles_rows d)) as [p|]; [|reflexivity].
    f_equal. now apply profiles_set_null_garage.
  - intros p Hin Hp. apply in_map_iff. exists p. split; [|exact Hin].
    unfold profiles_set_null. rewrite Hp. cbn [sql_eq is_true].
    rewrite N.eqb_refl. reflexivity.
Qed.

Lemma garage_delete_unassigns_members_witness :
  exists d',
    exec sample (Authenticated 1) 9 (DeleteRow garages 10) = Ok d'
    /\ get_user_garage d' (Some 2%N) = None.
Proof.
  eexists. split; [vm_compute; reflexivity|].
  destruct (@garage_delete_unassigns_members sample _ (Authenticated 1) 9 10%N
              eq_refl) as (H & _).
  apply H. reflexivity.
Defined.

Lemma garage_delete_blocked_by_foreign_sale_witness :
  In sale_garage_20 (ventes_rows crossed)
  /\ restricted (exec crossed (Authenticated 1) 10 (DeleteRow garages 10))
                "ventes_voiture_id_fkey".
Proof.
  assert (Hin : In sale_garage_20 (ventes_rows crossed))
    by (vm_compute; tauto).
  split; [exact Hin|].
  refine (proj1 (@garage_delete_blocked_by_foreign_sale crossed
                   (Authenticated 1) 10 10%N sale_garage_20 _ Hin _)
            sample_car _ eq_refl eq_refl).
  - apply run_valid. exact valid_sample.
  - discriminate.
  - vm_compute. tauto.
Defined.

(* ------------------------------------------------------------------------- *)
(** * The identity that has just signed up *)

Lemma has_role_none (d : db) (u : uuid) (a : app_role) :
  ~ In u (map UserRoles.user_id (user_roles_rows d)) ->
  has_role d (Some u) a = false.
Proof.
  intro H. unfold has_role. apply not_true_is_false. intro E.
  apply existsb_exists in E as (r & Hin & Er). apply H.
  apply in_map_iff. exists r. split; [|exact Hin].
  cbn [sql_eq] in Er.
  destruct (N.eqb_spec (UserRoles.user_id r) u) as [E0|E0]; [exact E0|].
  discriminate Er.
Qed.

Lemma has_role_snoc (d : db) (l : list UserRoles.row) (r : UserRoles.row)
    (x : option uuid) (a : app_role) :
  user_roles_rows d = (l ++ [r])%list ->
  has_role d x a
  = (existsb
       (fun r => is_true (sql_and (sql_eq (Some (UserRoles.user_id r)) x)
                                  (Some (app_role_eqb (UserRoles.role r) a))))
       l
     || is_true (sql_and (sql_eq (Some (UserRoles.user_id r)) x)
                         (Some (app_role_eqb (UserRoles.role r) a))))%bool.
Proof.
  intro E. unfold has_role. rewrite E, existsb_app. cbn [existsb].
  now rewrite orb_false_r.
Qed.

(** X12.  In a valid database, the identity a committed sign-up creates holds
    the employee role and no other, and its profile has no garage, so that
    every operation on cars, clients and sales is denied to it until an
    administrator or the identity itself sets the garage of its profile. *)
Theorem new_identity_unassigned_employee (d d' : db) (now : timestamptz)
    (pid rid : uuid) (new : AuthUsers.row) :
  valid d ->
  exec_event d (SignUp now pid rid new) = Ok d' ->
  has_role d' (Some (AuthUsers.id new)) employe = true
  /\ has_role d' (Some (AuthUsers.id new)) responsable = false
  /\ has_role d' (Some (AuthUsers.id new)) admin = false
  /\ get_user_garage d' (Some (AuthUsers.id new)) = None
  /\ forall R (t : table R) (garage_id : R -> uuid) (q : dml R),
       tenant t = Some garage_id ->
       authorize t d' (Authenticated (AuthUsers.id new)) q = false.
Proof.
  intros Hv H. committed H.
  constraint Hvalid "users_pkey" Hk.
  constraint Hvalid "profiles_user_id_key" Hpk.
  constraint Hv "user_roles_user_id_fkey" Hru.
  cbn [handle_new_user set_rows auth_users_rows profiles_rows] in Hk, Hpk.
  rewrite map_app in Hk, Hpk.
  apply distinct_snoc_inv in Hk. apply distinct_snoc_inv in Hpk.
  cbn [map Profiles.user_id] in Hpk.
  assert (Hnone : forall a,
             existsb
               (fun r => is_true
                           (sql_and (sql_eq (Some (UserRoles.user_id r))
                                            (Some (AuthUsers.id new)))
                                    (Some (app_role_eqb (UserRoles.role r) a))))
               (user_roles_rows d) = false).
  { intro a. apply (has_role_none d (AuthUsers.id new) a).
    eapply no_row_of_fresh_key; [exact Hru | exact Hk]. }
  destruct (handle_new_user_rows now pid rid new
              (mkdb (auth_users_rows d ++ [new]) (garages_rows d)
                    (profiles_rows d) (user_roles_rows d) (voitures_rows d)
                    (clients_rows d) (ventes_rows d))) as [Ep Er].
  cbn [profiles_rows user_roles_rows] in Ep, Er.
  assert (Hg : get_user_garage
                 (handle_new_user now pid rid new
                    (mkdb (auth_users_rows d ++ [new]) (garages_rows d)
                          (profiles_rows d) (user_roles_rows d)
                          (voitures_rows d) (clients_rows d) (ventes_rows d)))
                 (Some (AuthUsers.id new)) = None).
  { unfold get_user_garage. rewrite Ep.
    destruct (find _ (profiles_rows d ++ _)) as [p|] eqn:E; [|reflexivity].
    apply find_some in E as [Hin Hp]. apply sql_eq_true_iff in Hp.
    injection Hp as Hp. apply in_app_or in Hin as [Hin|[<-|[]]].
    - elim Hpk. rewrite Hp. now apply in_map.
    - reflexivity. }
  assert (Hroles : forall a,
             has_role
               (handle_new_user now pid rid new
                  (mkdb (auth_users_rows d ++ [new]) (garages_rows d)
                        (profiles_rows d) (user_roles_rows d)
                        (voitures_rows d) (clients_rows d) (ventes_rows d)))
               (Some (AuthUsers.id new)) a
             = app_role_eqb employe a).
  { intro a.
    rewrite (@has_role_snoc _ _ _ (Some (AuthUsers.id new)) a Er), Hnone.
    cbn [orb UserRoles.user_id UserRoles.role sql_eq sql_and is_true].
    rewrite N.eqb_refl. now destruct a. }
  split; [now rewrite Hroles|split; [now rewrite Hroles|split;
    [now rewrite Hroles|split; [exact Hg|]]]].
  intros R t gid q Ht.
  scoped t Ht; destruct q; decide_rls; rewrite ?Hroles, ?Hg; reflexivity.
Qed.

Lemma new_identity_unassigned_employee_witness :
  exists d',
    exec_event sample (SignUp 9 500 1006 sample_new_user) = Ok d'
    /\ has_role d' (Some 5%N) admin = false
    /\ authorize voitures d' (Authenticated 5) (Select sample_car) = false.
Proof.
  eexists. split; [vm_compute; reflexivity|].
  destruct (@new_identity_unassigned_employee sample _ 9 500%N 1006%N
              sample_new_user valid_sample eq_refl) as (_ & _ & Ha & _ & Hd).
  split; [exact Ha|].
  apply (Hd _ voitures Voitures.garage_id). reflexivity.
Defined.

(* ------------------------------------------------------------------------- *)
(** * Isolation of the garages *)















(* ------------------------------------------------------------------------- *)
(** * The sales page *)







Lemma lookup_replaced {R} (t : table R) (k : uuid) (new old : R)
    (l : list R) :
  find (fun r => N.eqb (pk t r) k) l = Some old ->
  pk t new = k ->
  find (fun r => N.eqb (pk t r) k) (replace_row t k new l) = Some new.
Proof.
  intros Hf Hnew. induction l as [|x l IH]; [discriminate Hf|].
  cbn [replace_row map find] in *. fold (replace_row t k new l).
  destruct (N.eqb_spec (pk t x) k) as [E|E].
  - rewrite Hnew, N.eqb_refl. reflexivity.
  - apply N.eqb_neq in E. rewrite E. now apply IH.
Qed.



(* ------------------------------------------------------------------------- *)
(** * The garages page *)

Lemma garage_update_valid (d : db) (k : uuid) (new : Garages.row) :
  valid d ->
  Garages.id new = k ->
  valid (set_rows garages (replace_row garages k new (rows garages d)) d).
Proof.
  intros Hv Hk.
  assert (Eid : map Garages.id (replace_row garages k new (garages_rows d))
                = map Garages.id (garages_rows d)).
  { apply map_replace_row. intros r _ Er. cbn [pk] in Er. congruence. }
  preserved Hv; rewrite Eid; exact Hold.
Qed.

(** X17.  Editing a garage and saving it unchanged.  For an administrator, in
    a valid database, [handleEdit] followed by [handleSubmit] is committed
    and reports success; the name of the garage is kept, but an address, a
    phone or an email that was NULL is stored as the empty text, and
    [updated_at] is the time of the statement. *)
Theorem garage_edit_stores_empty_text (d : db) (u : uuid) (g : Garages.row)
    (now : timestamptz) (id : uuid) :
  valid d ->
  has_role d (Some u) admin = true ->
  lookup_row garages (Garages.id g) d = Some g ->
  let res := GaragesPage.handleSubmit d (Authenticated u) (Some g)
               (GaragesPage.handleEdit g) now id in
  snd res = toast_success "Garage modifié avec succès"
  /\ lookup_row garages (Garages.id g) (fst res)
     = Some (Garages.mk (Garages.id g) (Garages.nom g)
               (Some (GaragesPage.or_empty (Garages.adresse g)))
               (Some (GaragesPage.or_empty (Garages.telephone g)))
               (Some (GaragesPage.or_empty (Garages.email g)))
               (Garages.created_at g) now).
Proof.
  intros Hv Hadmin Hfound res.
  assert (Hupd : exec d (Authenticated u) now
                   (UpdateRow garages (Garages.id g)
                      (GaragesPage.update_of (GaragesPage.handleEdit g)))
                 = Ok (set_rows garages
                         (replace_row garages (Garages.id g)
                            (before_update garages now
                               (GaragesPage.update_of
                                  (GaragesPage.handleEdit g) g))
                            (rows garages d)) d)).
  { cbn [exec]. unfold exec_update. rewrite Hfound.
    assert (Eu : passes_using (policies garages) UPDATE d (Authenticated u) g
                 = true) by (decide_rls; now rewrite Hadmin).
    assert (Ec : passes_check (policies garages) UPDATE d (Authenticated u)
                   (before_update garages now
                      (GaragesPage.update_of (GaragesPage.handleEdit g) g))
                 = true) by (decide_rls; now rewrite Hadmin).
    rewrite Eu. cbv zeta. rewrite Ec.
    apply check_constraints_Ok. split; [|reflexivity].
    now apply garage_update_valid. }
  unfold res, GaragesPage.handleSubmit. cbv zeta. rewrite Hupd.
  cbn [reported state_after fst snd]. split; [reflexivity|].
  unfold lookup_row. rewrite rows_set_rows.
  apply (lookup_replaced garages) with g; [exact Hfound | reflexivity].
Qed.

Lemma garage_edit_stores_empty_text_witness :
  option_map Garages.adresse
    (lookup_row garages 20
       (fst (GaragesPage.handleSubmit sample (Authenticated 1)
               (Some (Garages.mk 20 "Garage B" None None None 5 5))
               (GaragesPage.handleEdit
                  (Garages.mk 20 "Garage B" None None None 5 5)) 9 0)))
  = Some (Some "").
Proof.
  destruct (@garage_edit_stores_empty_text sample 1%N
              (Garages.mk 20 "Garage B" None None None 5 5) 9 0%N
              valid_sample eq_refl eq_refl) as [_ H].
  cbn [Garages.id] in H. rewrite H. reflexivity.
Defined.

(** X18.  The handlers look only at the reported error.  The update of a
    garage by a caller without the admin role finds no row it may update,
    which is no error: [handleSubmit] leaves the database as it was and
    reports success all the same. *)
Theorem garage_edit_by_non_admin_is_silent (d : db) (s : session)
    (g : Garages.row) (f : GaragesPage.formData) (now : timestamptz)
    (id : uuid) :
  has_role d (auth_uid s) admin = false ->
  GaragesPage.handleSubmit d s (Some g) f now id
  = (d, toast_success "Garage modifié avec succès").
Proof.
  intro Hadmin. unfold GaragesPage.handleSubmit. cbv zeta.
  assert (E : exec d s now
                (UpdateRow garages (Garages.id g) (GaragesPage.update_of f))
              = Err NotFound).
  { cbn [exec]. unfold exec_update.
    destruct (lookup_row garages (Garages.id g) d) as [old|]; [|reflexivity].
    assert (Eu : passes_using (policies garages) UPDATE d s old = false).
    { destruct s as [|u]; [apply passes_anon|].
      decide_rls. cbn [auth_uid] in Hadmin. now rewrite Hadmin. }
    now rewrite Eu. }
  rewrite E. reflexivity.
Qed.

Lemma garage_edit_by_non_admin_is_silent_witness :
  GaragesPage.handleSubmit sample (Authenticated 4)
    (Some (Garages.mk 10 "Garage A" None None None 5 5))
    (GaragesPage.mkForm "Garage Z" "" "" "") 9 0
  = (sample, toast_success "Garage modifié avec succès").
Proof.
  apply (@garage_edit_by_non_admin_is_silent sample (Authenticated 4)).
  reflexivity.
Defined.

(* ------------------------------------------------------------------------- *)
(** * The statistics page *)

Lemma count_of_increment (k k' : string) (counts : list (string * nat)) :
  Statistiques.count_of k (Statistiques.increment k' counts)
  = (Statistiques.count_of k counts + if String.eqb k' k then 1 else 0)%nat.
Proof.
  induction counts as [|[k0 n] rest IH]; cbn [Statistiques.increment
                                                Statistiques.count_of].
  - destruct (String.eqb k' k); reflexivity.
  - destruct (String.eqb_spec k0 k') as [->|E];
      cbn [Statistiques.count_of].
    + destruct (String.eqb k' k);
        [now rewrite Nat.add_1_r | now rewrite Nat.add_0_r].
    + destruct (String.eqb_spec k0 k) as [->|E0]; [|exact IH].
      apply not_eq_sym, String.eqb_neq in E. rewrite E.
      now rewrite Nat.add_0_r.
Qed.

Lemma keys_of_increment (k : string) (counts : list (string * nat)) :
  map fst (Statistiques.increment k counts)
  = if existsb (String.eqb k) (map fst counts)
    then map fst counts
    else (map fst counts ++ [k])%list.
Proof.
  induction counts as [|[k0 n] rest IH]; [reflexivity|].
  cbn [Statistiques.increment map fst existsb].
  rewrite (String.eqb_sym k k0).
  destruct (String.eqb k0 k); cbn [orb map fst]; [reflexivity|].
  rewrite IH. now destruct (existsb (String.eqb k) (map fst rest)).
Qed.

Lemma total_of_increment (k : string) (counts : list (string * nat)) :
  list_sum (map snd (Statistiques.increment k counts))
  = S (list_sum (map snd counts)).
Proof.
  induction counts as [|[k0 n] rest IH]; [reflexivity|].
  cbn [Statistiques.increment].
  destruct (String.eqb k0 k); simpl; [lia|].
  simpl in IH. rewrite IH. lia.
Qed.

Lemma NoDup_snoc {A} (l : list A) (x : A) :
  NoDup l -> ~ In x l -> NoDup (l ++ [x]).
Proof.
  induction l as [|a l IH]; intros Hl Hx.
  - constructor; [intros []|constructor].
  - inversion Hl as [|? ? Ha Hl']; subst. cbn. constructor.
    + intro Hin. apply in_app_or in Hin as [Hin|[->|[]]]; [contradiction|].
      apply Hx. now left.
    + apply IH; [exact Hl'|]. intro Hin. apply Hx. now right.
Qed.

Lemma count_of_carburantCount (sales : list (option string)) (k : string) :
  Statistiques.count_of k (Statistiques.carburantCount sales)
  = List.length
      (filter (fun c => String.eqb (Statistiques.carburant_of c) k) sales).
Proof.
  unfold Statistiques.carburantCount.
  change (List.length
            (filter (fun c => String.eqb (Statistiques.carburant_of c) k)
                    sales))
    with (Statistiques.count_of k []
          + List.length
              (filter (fun c => String.eqb (Statistiques.carburant_of c) k)
                      sales))%nat.
  generalize (@nil (string * nat)) as acc.
  induction sales as [|c l IH]; intro acc; cbn [fold_left filter];
    [cbn; lia|].
  rewrite IH, count_of_increment.
  destruct (String.eqb (Statistiques.carburant_of c) k); cbn; lia.
Qed.

Lemma keys_of_carburantCount (sales : list (option string)) (k : string) :
  In k (map fst (Statistiques.carburantCount sales)) ->
  exists c, In c sales /\ Statistiques.carburant_of c = k.
Proof.
  unfold Statistiques.carburantCount.
  assert (H : forall l acc,
             In k (map fst
                     (fold_left
                        (fun counts c =>
                           Statistiques.increment
                             (Statistiques.carburant_of c) counts) l acc)) ->
             In k (map fst acc)
             \/ exists c, In c l /\ Statistiques.carburant_of c = k).
  { induction l as [|c l IH]; intros acc Hin; cbn [fold_left] in Hin;
      [now left|].
    apply IH in Hin as [Hin|(c' & Hc' & E)].
    - rewrite keys_of_increment in Hin.
      destruct (existsb _ (map fst acc)); [now left|].
      apply in_app_or in Hin as [Hin|[<-|[]]]; [now left|].
      right. exists c. split; [now left | reflexivity].
    - right. exists c'. split; [now right | exact E]. }
  intro Hin. apply H in Hin as [[]|Hin]. exact Hin.
Qed.

(** The five fuels are neither the empty text nor the key of the sales
    without fuel. *)
Lemma carburant_of_fuel (x : string) :
  In x carburants ->
  Statistiques.carburant_of (Some x) = x /\ x <> "" /\ x <> "Inconnu".
Proof.
  cbn [carburants In]. intros H.
  repeat (destruct H as [<-|H];
          [repeat split; discriminate|]).
  destruct H.
Qed.

(** X19.  The loop of the statistics page that counts the sales by fuel, on
    sales whose car, when it is read, has one of the five fuels or an empty
    one: the count under a fuel is the number of sales of a car with that
    fuel; the sales whose car is not read or has an empty fuel are counted
    under "Inconnu"; there is no other key, no key appears twice, and the
    counts add up to the number of sales. *)
Theorem sales_counted_by_fuel (sales : list (option string)) :
  (forall x, In (Some x) sales -> x = "" \/ In x carburants) ->
  (forall k,
      In k carburants ->
      Statistiques.count_of k (Statistiques.carburantCount sales)
      = List.length
          (filter (fun c => match c with
                            | Some x => String.eqb x k
                            | None => false
                            end) sales))
  /\ Statistiques.count_of "Inconnu" (Statistiques.carburantCount sales)
     = List.length
         (filter (fun c => match c with
                           | Some x => String.eqb x ""
                           | None => true
                           end) sales)
  /\ (forall k,
         In k (map fst (Statistiques.carburantCount sales)) ->
         k = "Inconnu" \/ In k carburants)
  /\ NoDup (map fst (Statistiques.carburantCount sales))
  /\ list_sum (map snd (Statistiques.carburantCount sales))
     = List.length sales.
Proof.
  intro Hfuel. split; [|split; [|split; [|split]]].
  - intros k Hk. rewrite count_of_carburantCount. f_equal.
    destruct (carburant_of_fuel Hk) as (_ & Hne & Hni).
    apply filter_ext. intros [x|]; cbn [Statistiques.carburant_of].
    + destruct (String.eqb_spec x "") as [->|E]; [|reflexivity].
      transitivity false; [|symmetry]; apply String.eqb_neq; congruence.
    + apply String.eqb_neq. congruence.
  - rewrite count_of_carburantCount. f_equal.
    apply filter_ext_in. intros [x|] Hin; [|reflexivity].
    destruct (Hfuel x Hin) as [->|Hx]; [reflexivity|].
    destruct (carburant_of_fuel Hx) as (-> & Hne & Hni).
    transitivity false; [|symmetry]; now apply String.eqb_neq.
  - intros k Hin. apply keys_of_carburantCount in Hin as (c & Hc & <-).
    destruct c as [x|]; [|now left].
    destruct (Hfuel x Hc) as [->|Hx]; [now left|].
    right. now destruct (carburant_of_fuel Hx) as (-> & _).
  - unfold Statistiques.carburantCount.
    assert (H : forall l acc,
               NoDup (map fst acc) ->
               NoDup (map fst
                 (fold_left
                    (fun counts c =>
                       Statistiques.increment (Statistiques.carburant_of c)
                                              counts) l acc))).
    { induction l as [|c l IH]; intros acc Hacc; cbn [fold_left];
        [exact Hacc|].
      apply IH. rewrite keys_of_increment.
      destruct (existsb _ (map fst acc)) eqn:E; [exact Hacc|].
      apply NoDup_snoc; [exact Hacc|].
      intro Hin. apply one_of_In in Hin. congruence. }
    apply H. constructor.
  - unfold Statistiques.carburantCount.
    assert (H : forall l acc,
               list_sum (map snd
                 (fold_left
                    (fun counts c =>
                       Statistiques.increment (Statistiques.carburant_of c)
                                              counts) l acc))
               = (list_sum (map snd acc) + List.length l)%nat).
    { induction l as [|c l IH]; intros acc; cbn [fold_left]; [cbn; lia|].
      rewrite IH, total_of_increment. cbn. lia. }
    rewrite H. reflexivity.
Qed.

Lemma sales_counted_by_fuel_witness :
  Statistiques.carburantCount
    [Some "diesel"; None; Some ""; Some "essence"; Some "diesel"]
  = [("diesel", 2%nat); ("Inconnu", 2%nat); ("essence", 1%nat)]
  /\ Statistiques.count_of "Inconnu"
       (Statistiques.carburantCount
          [Some "diesel"; None; Some ""; Some "essence"; Some "diesel"])
     = 2%nat
  /\ Statistiques.count_of "diesel"
       (Statistiques.carburantCount
          [Some "diesel"; None; Some ""; Some "essence"; Some "diesel"])
     = 2%nat.
Proof.
  assert (Hfuel : forall x,
             In (Some x)
                [Some "diesel"; None; Some ""; Some "essence"; Some "diesel"]
             -> x = "" \/ In x carburants).
  { intros x Hin. cbn in Hin |- *.
    repeat (destruct Hin as [Hin|Hin];
            [try discriminate Hin; injection Hin as <-; tauto|]).
    destruct Hin. }
  destruct (@sales_counted_by_fuel _ Hfuel) as (Hcount & Hunknown & _).
  split; [reflexivity|split].
  - exact Hunknown.
  - apply (Hcount "diesel"). cbn. tauto.
Defined.

(* ------------------------------------------------------------------------- *)
(** * The cars page *)

Lemma filter_filter {A} (P Q : A -> bool) (l : list A) :
  filter P (filter Q l) = filter (fun x => Q x && P x) l.
Proof.
  induction l as [|a l IH]; [reflexivity|].
  cbn [filter]. destruct (Q a); cbn [filter andb]; [|exact IH].
  destruct (P a); now rewrite IH.
Qed.

Lemma filter_all {A} (l : list A) : filter (fun _ => true) l = l.
Proof. induction l as [|a l IH]; [reflexivity|]. cbn. now rewrite IH. Qed.

Section CarFilters.

Variable toLowerCase : string -> string.

(** The list the page shows is the list of the cars that pass the three
    tests, in the order they were fetched. *)
Lemma filteredVoitures_filter (voitures : list Voitures.row)
    (searchTerm filterCarburant filterDisponible : string) :
  VoituresPage.filteredVoitures toLowerCase voitures searchTerm
    filterCarburant filterDisponible
  = filter (fun v =>
              VoituresPage.matches_search toLowerCase searchTerm v
              && VoituresPage.matches_carburant filterCarburant v
              && VoituresPage.matches_disponible filterDisponible v)
           voitures.
Proof.
  unfold VoituresPage.filteredVoitures, VoituresPage.matches_search,
    VoituresPage.matches_carburant, VoituresPage.matches_disponible.
  cbv zeta.
  destruct (String.eqb searchTerm ""), (String.eqb filterCarburant "all"),
    (String.eqb filterDisponible "all");
    rewrite ?filter_filter; cbn [andb];
    try (symmetry; apply filter_all);
    apply filter_ext; intro v; rewrite ?andb_true_r, ?andb_assoc;
    reflexivity.
Qed.

(** X20.  The filters of the cars page.  With an empty search term and both
    selects on ['all'] every fetched car is shown.  A car that is shown is a
    fetched car; it has the selected fuel when a fuel is selected, and when
    the availability select is not on ['all'] it is available exactly when
    the select is on ['true'].  Filtering what is shown again changes
    nothing. *)
Theorem car_filters (voitures : list Voitures.row)
    (searchTerm filterCarburant filterDisponible : string) :
  VoituresPage.filteredVoitures toLowerCase voitures "" "all" "all" = voitures
  /\ (forall v,
         In v (VoituresPage.filteredVoitures toLowerCase voitures searchTerm
                 filterCarburant filterDisponible) ->
         In v voitures
         /\ (filterCarburant <> "all" ->
             Voitures.carburant v = filterCarburant)
         /\ (filterDisponible <> "all" ->
             Voitures.disponible v = String.eqb filterDisponible "true"))
  /\ VoituresPage.filteredVoitures toLowerCase
       (VoituresPage.filteredVoitures toLowerCase voitures searchTerm
          filterCarburant filterDisponible)
       searchTerm filterCarburant filterDisponible
     = VoituresPage.filteredVoitures toLowerCase voitures searchTerm
         filterCarburant filterDisponible.
Proof.
  split; [reflexivity|split].
  - intros v Hin. rewrite filteredVoitures_filter in Hin.
    apply filter_In in Hin as [Hin Hv].
    apply andb_true_iff in Hv as [Hv Hd]. apply andb_true_iff in Hv as [_ Hc].
    split; [exact Hin|split].
    + intro Hne. unfold VoituresPage.matches_carburant in Hc.
      apply String.eqb_neq in Hne. rewrite Hne in Hc.
      now apply String.eqb_eq.
    + intro Hne. unfold VoituresPage.matches_disponible in Hd.
      apply String.eqb_neq in Hne. rewrite Hne in Hd.
      now apply Bool.eqb_prop.
  - rewrite !filteredVoitures_filter, filter_filter.
    apply filter_ext. intro v. now rewrite andb_diag.
Qed.

End CarFilters.

Lemma car_filters_witness :
  VoituresPage.filteredVoitures (fun s => s) [sample_car] "" "diesel" "all"
  = []
  /\ VoituresPage.filteredVoitures (fun s => s) [sample_car] "Ren" "all" "true"
     = [sample_car].
Proof.
  destruct (@car_filters (fun s => s) [sample_car] "" "diesel" "all")
    as (_ & Hin & _).
  split; [|reflexivity].
  destruct (VoituresPage.filteredVoitures (fun s => s) [sample_car] ""
              "diesel" "all") as [|v l] eqn:E; [reflexivity|].
  destruct (Hin v (or_introl eq_refl)) as ([<-|[]] & Hc & _).
  discriminate Hc. discriminate.
Defined.

(* ------------------------------------------------------------------------- *)
(** * Refused and unseen updates *)

Lemma before_update_garage {R} (t : table R) (gid : R -> uuid)
    (now : timestamptz) (r : R) :
  tenant t = Some gid -> gid (before_update t now r) = gid r.
Proof. intro Ht. scoped t Ht; reflexivity. Qed.

(** X14.  The two ways an update fails for a caller without the admin role, on
    cars, clients and sales.  A manager that moves a row of its garage to
    another garage is refused with an error, by the WITH CHECK expression; a
    caller that is not a manager finds no row to update, which is reported as
    no error. *)
Theorem update_refused_or_unseen {R} (t : table R) (garage_id : R -> uuid)
    (d : db) (u : uuid) (now : timestamptz) (k : uuid) (set : R -> R) :
  tenant t = Some garage_id ->
  has_role d (Some u) admin = false ->
  (forall G old,
      has_role d (Some u) responsable = true ->
      get_user_garage d (Some u) = Some G ->
      lookup_row t k d = Some old ->
      garage_id old = G -> garage_id (set old) <> G ->
      exec d (Authenticated u) now (UpdateRow t k set)
      = Err AuthorizationDenied)
  /\ (has_role d (Some u) responsable = false ->
      exec d (Authenticated u) now (UpdateRow t k set) = Err NotFound
      /\ reported (exec d (Authenticated u) now (UpdateRow t k set)) = None).
Proof.
  intros Ht Hadmin. split.
  - intros G old Hresp HG Hfound Hold Hnew.
    cbn [exec]. unfold exec_update. rewrite Hfound.
    assert (Hg : garage_id (before_update t now (set old)) <> G)
      by (now rewrite (@before_update_garage _ t garage_id now (set old) Ht)).
    assert (Eu : passes_using (policies t) UPDATE d (Authenticated u) old
                 = true).
    { revert Hold Hg. scoped t Ht; intros Hold Hg; decide_rls;
        rewrite Hadmin, Hresp, HG, Hold, N.eqb_refl; reflexivity. }
    assert (Ec : passes_check (policies t) UPDATE d (Authenticated u)
                   (before_update t now (set old)) = false).
    { revert Hold Hg. scoped t Ht; intros Hold Hg; decide_rls;
        rewrite Hadmin, Hresp, HG; apply N.eqb_neq in Hg; cbn in Hg |- *;
        rewrite Hg; reflexivity. }
    rewrite Eu. cbv zeta. rewrite Ec. reflexivity.
  - intro Hresp.
    assert (E : exec d (Authenticated u) now (UpdateRow t k set)
                = Err NotFound).
    { cbn [exec]. unfold exec_update.
      destruct (lookup_row t k d) as [old|]; [|reflexivity].
      assert (Eu : passes_using (policies t) UPDATE d (Authenticated u) old
                   = false).
      { scoped t Ht; decide_rls; rewrite Hadmin, Hresp;
          destruct (get_user_garage d (Some u)); rewrite ?andb_false_r;
          reflexivity. }
      now rewrite Eu. }
    rewrite E. split; reflexivity.
Qed.

Lemma update_refused_or_unseen_witness :
  exec sample (Authenticated 4) 9
    (UpdateRow clients 600
       (fun c => Clients.mk (Clients.id c) 20 (Clients.nom c)
                   (Clients.prenom c) (Clients.email c) (Clients.telephone c)
                   (Clients.adresse c) (Clients.created_at c)
                   (Clients.updated_at c)))
  = Err AuthorizationDenied
  /\ exec sample (Authenticated 2) 9
       (UpdateRow voitures 500 (set_disponible false))
     = Err NotFound.
Proof.
  split.
  - refine (proj1 (@update_refused_or_unseen _ clients Clients.garage_id
                     sample 4%N 9 600%N _ eq_refl eq_refl)
              10%N sample_client eq_refl eq_refl eq_refl eq_refl _).
    discriminate.
  - refine (proj1 (proj2 (@update_refused_or_unseen _ voitures
                            Voitures.garage_id sample 2%N 9 500%N
                            (set_disponible false) eq_refl eq_refl)
                     eq_refl)).
Defined.
